(** * Pre-Seminary Workout: timer engine, session recorder, log store,
      plan authoring and progress analytics of [src/app/page.tsx]

    The page is one React module.  Its hooks keep their state in
    [useState] cells; here every handler is a pure function from the
    state it closes over to the state it sets.

    Numbers.  A JavaScript number is modelled by [Js.number]: a
    rational, or one of NaN, +Infinity, -Infinity.  The operations of
    [Js] are the exact ones; they serve the statements that no rounding
    can disturb (orderings, clamping, values that are exact in binary64).
    The operations of [F64] are those of binary64: the exact result
    rounded to the nearest double, ties to even, with overflow to an
    infinity and gradual underflow.  [Page64] holds the two expressions
    of the page whose value depends on that rounding, the percentage
    of the timer and the improvement figure, as they are executed.  The
    sign of zero is not modelled.  Block minutes are integers (the
    minutes field parses its input with [parseInt]) and are kept in
    [Z]; timestamps and elapsed seconds are finite and kept in [Q]. *)

From Stdlib Require Import ZArith QArith Qround Qminmax Qabs Qpower.
From Stdlib Require Import Bool List String.
From Stdlib Require Import Lia Lqa.
From Stdlib Require DecimalString.
Import ListNotations.

Local Open Scope Z_scope.

(* ================================================================== *)
(** ** JavaScript numbers *)

Module Js.

Inductive number : Type :=
| Fin (q : Q)
| NaN
| PosInf
| NegInf.

Definition Qltb (x y : Q) : bool := negb (Qle_bool y x).

Definition inf_of_sign (positive : bool) : number :=
  if positive then PosInf else NegInf.

Definition neg (x : number) : number :=
  match x with
  | Fin q => Fin (- q)
  | NaN => NaN
  | PosInf => NegInf
  | NegInf => PosInf
  end.

Definition add (x y : number) : number :=
  match x, y with
  | NaN, _ | _, NaN => NaN
  | Fin a, Fin b => Fin (a + b)
  | PosInf, NegInf | NegInf, PosInf => NaN
  | PosInf, _ | _, PosInf => PosInf
  | NegInf, _ | _, NegInf => NegInf
  end.

Definition sub (x y : number) : number := add x (neg y).

(** [inf * a] for a finite [a]: NaN at zero, otherwise signed. *)
Definition scale_inf (positive : bool) (a : Q) : number :=
  if Qeq_bool a 0 then NaN
  else inf_of_sign (Bool.eqb positive (Qle_bool 0 a)).

Definition mul (x y : number) : number :=
  match x, y with
  | NaN, _ | _, NaN => NaN
  | Fin a, Fin b => Fin (a * b)
  | Fin a, PosInf | PosInf, Fin a => scale_inf true a
  | Fin a, NegInf | NegInf, Fin a => scale_inf false a
  | PosInf, PosInf | NegInf, NegInf => PosInf
  | PosInf, NegInf | NegInf, PosInf => NegInf
  end.

(** Division.  A zero divisor is taken as +0. *)
Definition div (x y : number) : number :=
  match x, y with
  | NaN, _ | _, NaN => NaN
  | Fin a, Fin b =>
      if Qeq_bool b 0
      then (if Qeq_bool a 0 then NaN else inf_of_sign (Qle_bool 0 a))
      else Fin (a / b)
  | Fin _, (PosInf | NegInf) => Fin 0
  | PosInf, Fin b => inf_of_sign (Qle_bool 0 b)
  | NegInf, Fin b => inf_of_sign (negb (Qle_bool 0 b))
  | (PosInf | NegInf), (PosInf | NegInf) => NaN
  end.

(** [Math.round] on a finite value: the nearest integer, halves going
    up. *)
Definition round_Q (q : Q) : Z := Qfloor (q + (1 # 2)).

Definition Math_round (x : number) : number :=
  match x with
  | Fin q => Fin (inject_Z (round_Q q))
  | other => other
  end.

(** Truthiness of a number: everything but 0 and NaN. *)
Definition truthy (x : number) : bool :=
  match x with
  | Fin q => negb (Qeq_bool q 0)
  | NaN => false
  | PosInf | NegInf => true
  end.

(** [x === 0]. *)
Definition is_zero (x : number) : bool :=
  match x with
  | Fin q => Qeq_bool q 0
  | _ => false
  end.

(** Equality of numbers as values: rationals compared by [Qeq]. *)
Definition num_eq (x y : number) : Prop :=
  match x, y with
  | Fin a, Fin b => (a == b)%Q
  | NaN, NaN | PosInf, PosInf | NegInf, NegInf => True
  | _, _ => False
  end.

(** The values a [Record<string, number>] slot can hold at run time. *)
Inductive value : Type :=
| VNum (n : number)
| VUndefined
| VNull.

(** [Number(v)]. *)
Definition Number (v : value) : number :=
  match v with
  | VNum n => n
  | VUndefined => NaN
  | VNull => Fin 0
  end.

(** [x || 0] on numbers. *)
Definition or_zero (x : number) : number :=
  if truthy x then x else Fin 0.

End Js.

(* ================================================================== *)
(** ** Types *)

Inductive Intensity : Type := low | moderate | high.

Inductive MetricKind : Type := reps | time_s | distance_m | custom.

Record Metric : Type := {
  kind : MetricKind;
  label : option string;
  higherIsBetter : option bool
}.

Record Block : Type := {
  id : string;
  name : string;
  minutes : Z;
  intensity : Intensity;
  metric : option Metric;
  target : option Q;
  notes : option string
}.

Record WorkoutPlan : Type := {
  plan_id : string;
  title : string;
  tags : list string;
  blocks : list Block;
  author : string
}.

Record MetricEntry : Type := {
  blockId : string;
  value : Js.number
}.

Record SessionLog : Type := {
  log_id : string;
  userId : option string;
  planId : string;
  date : string;
  duration : Js.number;
  rpe : Z;
  log_notes : string;
  metrics : list MetricEntry
}.

(** [DEFAULT_BLOCKS], with the three ids [uid()] drew passed in. *)
Definition DEFAULT_BLOCKS (i1 i2 i3 : string) : list Block :=
  [ {| id := i1; name := "Warmup"; minutes := 10; intensity := low;
       metric := Some {| kind := time_s; label := Some "Mobility"%string;
                         higherIsBetter := Some true |};
       target := None; notes := Some "Mobility + breath"%string |};
    {| id := i2; name := "Main Set"; minutes := 30; intensity := moderate;
       metric := Some {| kind := reps; label := Some "Total Reps"%string;
                         higherIsBetter := Some true |};
       target := Some 150%Q; notes := Some "Circuit training"%string |};
    {| id := i3; name := "Cooldown"; minutes := 5; intensity := low;
       metric := Some {| kind := time_s; label := Some "Stretch"%string;
                         higherIsBetter := Some true |};
       target := None; notes := Some "Stretch + reflect"%string |} ].

(** [DEFAULT_PLANS]; [p1 p2] and [j1 j2 j3] are the further ids drawn. *)
Definition DEFAULT_PLANS (p1 p2 i1 i2 i3 j1 j2 j3 : string)
  : list WorkoutPlan :=
  [ {| plan_id := p1; title := "Baseline 45";
       tags := ["general"%string; "intro"%string];
       blocks := DEFAULT_BLOCKS i1 i2 i3; author := "Instructor Team" |};
    {| plan_id := p2; title := "Strength & Stillness";
       tags := ["strength"%string; "breath"%string];
       blocks :=
         [ {| id := j1; name := "Warmup"; minutes := 8; intensity := low;
              metric := Some {| kind := time_s; label := Some "Warm"%string;
                                higherIsBetter := Some true |};
              target := None;
              notes := Some "Joint circles + easy jog"%string |};
           {| id := j2; name := "Strength Circuit"; minutes := 27;
              intensity := high;
              metric := Some {| kind := reps;
                                label := Some "Total Reps"%string;
                                higherIsBetter := Some true |};
              target := None;
              notes := Some "Push/Pull/Squat rotations"%string |};
           {| id := j3; name := "Breath & Prayer Walk"; minutes := 10;
              intensity := low;
              metric := Some {| kind := time_s; label := Some "Walk"%string;
                                higherIsBetter := Some true |};
              target := None;
              notes := Some "Box breathing + walk"%string |} ];
       author := "Instructor Team" |} ].

(* ================================================================== *)
(** ** Timer hook: [useIntervalTimer] *)

Module Timer.

(** [b.minutes || 0]. *)
Definition minutes_or_zero (b : Block) : Z :=
  if minutes b =? 0 then 0 else minutes b.

Definition totalMinutes (bs : list Block) : Z :=
  fold_left (fun a b => a + minutes_or_zero b) bs 0.

Definition totalSec (bs : list Block) : Z := totalMinutes bs * 60.

(** The hook's cells: [isRunning], [elapsedSec] and the [lastTick]
    ref. *)
Record state : Type := {
  isRunning : bool;
  elapsedSec : Q;
  lastTick : option Q
}.

Definition init : state :=
  {| isRunning := false; elapsedSec := 0; lastTick := None |}.

Definition start (s : state) : state :=
  if negb (isRunning s)
  then {| isRunning := true; elapsedSec := elapsedSec s;
          lastTick := lastTick s |}
  else s.

(** [setIsRunning(false)]; the effect then clears [lastTick]. *)
Definition pause (s : state) : state :=
  {| isRunning := false; elapsedSec := elapsedSec s; lastTick := None |}.

Definition reset (s : state) : state :=
  {| isRunning := false; elapsedSec := 0; lastTick := None |}.

(** The updater handed to [setElapsedSec]:
    [(s) => Math.min(s + dt, totalSec)]. *)
Definition tick (s dt total : Q) : Q := Qmin (s + dt) total.

(** One animation frame at timestamp [t] (milliseconds). *)
Definition loop (total : Q) (t : Q) (s : state) : state :=
  let last := match lastTick s with None => t | Some l => l end in
  let dt := ((t - last) / 1000)%Q in
  {| isRunning := isRunning s;
     elapsedSec := tick (elapsedSec s) dt total;
     lastTick := Some t |}.

(** An entry of the [cumulative] array. *)
Record cum : Type := {
  c_id : string;
  c_start : Z;
  c_end : Z;
  c_name : string;
  c_intensity : Intensity
}.

(** One turn of the [for (const b of blocks)] loop over [(acc, arr)]. *)
Definition cumulative_step (st : Z * list cum) (b : Block) : Z * list cum :=
  let '(acc, arr) := st in
  let start := acc * 60 in
  let acc' := acc + minutes b in
  let end_ := acc' * 60 in
  (acc', arr ++ [ {| c_id := id b; c_start := start; c_end := end_;
                     c_name := name b; c_intensity := intensity b |} ]).

Definition cumulative (bs : list Block) : list cum :=
  snd (fold_left cumulative_step bs (0, [])).

(** [elapsedSec >= c.start && elapsedSec < c.end]. *)
Definition contains (e : Q) (c : cum) : bool :=
  Qle_bool (inject_Z (c_start c)) e && Js.Qltb e (inject_Z (c_end c)).

(** [cumulative[cumulative.length - 1]]; index -1 of the empty array
    is undefined. *)
Definition last_entry (cs : list cum) : option cum :=
  match cs with
  | [] => None
  | _ => nth_error cs (List.length cs - 1)
  end.

(** [cumulative.find(...) || cumulative[cumulative.length - 1]]; an
    entry is an object, hence truthy. *)
Definition current_of (cs : list cum) (e : Q) : option cum :=
  match find (contains e) cs with
  | Some c => Some c
  | None => last_entry cs
  end.

Definition current (bs : list Block) (e : Q) : option cum :=
  current_of (cumulative bs) e.

(** [Math.round((elapsedSec / totalSec) * 100)]. *)
Definition percent (e total : Q) : Js.number :=
  Js.Math_round (Js.mul (Js.div (Js.Fin e) (Js.Fin total)) (Js.Fin 100)).

End Timer.

(* ================================================================== *)
(** ** The segment layout the timer resolves against *)

Module Layout.

Import Timer.

(** Sum of the declared minutes. *)
Definition sum_minutes (bs : list Block) : Z :=
  fold_right (fun b a => minutes b + a) 0 bs.

(** Start, in seconds, of segment [i] (counted from 0): the durations
    declared before it.  Segment [i] occupies the half-open interval
    from [seg_start bs i] to [seg_start bs (S i)]. *)
Definition seg_start (bs : list Block) (i : nat) : Z :=
  sum_minutes (firstn i bs) * 60.

(** The entry the loop pushes for block [b] met with accumulator [acc]. *)
Definition entry (acc : Z) (b : Block) : cum :=
  {| c_id := id b; c_start := acc * 60; c_end := (acc + minutes b) * 60;
     c_name := name b; c_intensity := intensity b |}.

(** The loop of [cumulative], by recursion on the blocks. *)
Fixpoint cumulative_from (acc : Z) (bs : list Block) : list cum :=
  match bs with
  | [] => []
  | b :: rest => entry acc b :: cumulative_from (acc + minutes b) rest
  end.

(** [e] lies in the half-open interval of segment [i]. *)
Definition in_segment (bs : list Block) (i : nat) (e : Q) : Prop :=
  (i < List.length bs)%nat /\
  (inject_Z (seg_start bs i) <= e < inject_Z (seg_start bs (S i)))%Q.

(** The entry of [cumulative] that stands for block [b], the [i]-th. *)
Definition entry_at (bs : list Block) (i : nat) (b : Block) : cum :=
  {| c_id := id b; c_start := seg_start bs i; c_end := seg_start bs (S i);
     c_name := name b; c_intensity := intensity b |}.

Definition nonneg (bs : list Block) : Prop :=
  Forall (fun b => 0 <= minutes b) bs.

End Layout.

(* ================================================================== *)
(** ** Root page: the log store *)

Module Store.

(** [setLogs([log, ...logs].slice(0, 500))]. *)
Definition addLog (log : SessionLog) (logs : list SessionLog)
  : list SessionLog :=
  firstn 500 (log :: logs).

(** The store after saving the sessions [ls] one after the other,
    [ls] listed oldest first. *)
Definition saved (ls : list SessionLog) : list SessionLog :=
  fold_left (fun store l => addLog l store) ls [].

End Store.

(* ================================================================== *)
(** ** Student dashboard *)

Module Student.

Record state : Type := {
  plans : list WorkoutPlan;
  selectedId : string;
  timer : Timer.state;
  studentName : string;
  rpe_input : Z;
  notes_input : string;
  metricInputs : list (string * Js.value)
}.

(** [plans.find((p) => p.id === selectedId) || plans[0]]. *)
Definition selected (st : state) : option WorkoutPlan :=
  match find (fun p => String.eqb (plan_id p) (selectedId st)) (plans st) with
  | Some p => Some p
  | None => nth_error (plans st) 0
  end.

(** The blocks handed to the timer: [selected?.blocks || DEFAULT_BLOCKS];
    [d1 d2 d3] are the ids of the default blocks. *)
Definition timer_blocks (d1 d2 d3 : string) (st : state) : list Block :=
  match selected st with
  | Some p => blocks p
  | None => DEFAULT_BLOCKS d1 d2 d3
  end.

(** A handler either completes or raises a [TypeError]. *)
Inductive outcome (A : Type) : Type :=
| Done (a : A)
| TypeError.
Arguments Done {A} a.
Arguments TypeError {A}.

(** [Object.entries(metricInputs).map(...)]. *)
Definition finish_metrics (inputs : list (string * Js.value))
  : list MetricEntry :=
  map (fun '(b, v) => {| blockId := b; value := Js.or_zero (Js.Number v) |})
      inputs.

(** The object [finish] hands to [addLog]; [fresh] is the id [uid()]
    drew and [now] the ISO date. *)
Definition finish_log (fresh now : string) (st : state) (sel : WorkoutPlan)
  : SessionLog :=
  let minutesDone :=
    Js.Math_round (Js.div (Js.Fin (Timer.elapsedSec (timer st))) (Js.Fin 60)) in
  let metrics := finish_metrics (metricInputs st) in
  {| log_id := fresh;
     userId := if String.eqb (studentName st) "" then None
               else Some (studentName st);
     planId := plan_id sel;
     date := now;
     duration := minutesDone;
     rpe := rpe_input st;
     log_notes := notes_input st;
     metrics := metrics |}.

(** [finish]: builds the log, appends it, resets the timer.  Reading
    [selected.id] raises when no plan is selected. *)
Definition finish (fresh now : string) (st : state) (logs : list SessionLog)
  : outcome (list SessionLog * state) :=
  match selected st with
  | None => TypeError
  | Some sel =>
      Done (Store.addLog (finish_log fresh now st sel) logs,
            {| plans := plans st; selectedId := selectedId st;
               timer := Timer.reset (timer st);
               studentName := studentName st; rpe_input := rpe_input st;
               notes_input := notes_input st;
               metricInputs := metricInputs st |})
  end.

(** [logs.filter((l) => l.planId === selected?.id)]. *)
Definition myLogs (logs : list SessionLog) (sel : option WorkoutPlan)
  : list SessionLog :=
  filter (fun l => match sel with
                   | Some p => String.eqb (planId l) (plan_id p)
                   | None => false
                   end) logs.

(** [l.metrics.find((m) => m.blockId === blockId)?.value]. *)
Definition metric_of (bid : string) (l : SessionLog) : option Js.number :=
  option_map value (find (fun m => String.eqb (blockId m) bid) (metrics l)).

(** [.filter((v) => typeof v === "number")]: drops the undefined. *)
Fixpoint numbers (vs : list (option Js.number)) : list Js.number :=
  match vs with
  | [] => []
  | Some v :: rest => v :: numbers rest
  | None :: rest => numbers rest
  end.

Definition series_of (logs : list SessionLog) (sel : option WorkoutPlan)
  (bid : string) : list Js.number :=
  numbers (map (metric_of bid) (myLogs logs sel)).

(** The object [computeImprovement] returns; an absent key is [None]. *)
Record improvement : Type := {
  baseline : option Js.number;
  latest : option Js.number;
  percent : option Js.number
}.

Definition no_improvement : improvement :=
  {| baseline := None; latest := None; percent := None |}.

(** The body of [computeImprovement] once [series] is known. *)
Definition improvement_of (series : list Js.number) : improvement :=
  if (List.length series <? 2)%nat then no_improvement
  else
    match nth_error series 0, nth_error series (List.length series - 1) with
    | Some b, Some l =>
        if negb (Js.truthy b) || Js.is_zero b
        then {| baseline := Some b; latest := Some l; percent := None |}
        else {| baseline := Some b; latest := Some l;
                percent :=
                  Some (Js.mul (Js.div (Js.sub l b) b) (Js.Fin 100)) |}
    | _, _ => no_improvement
    end.

Definition computeImprovement (logs : list SessionLog)
  (sel : option WorkoutPlan) (bid : string) : improvement :=
  improvement_of (series_of logs sel bid).

End Student.

(* ================================================================== *)
(** ** Instructor dashboard *)

Module Instructor.

Record state : Type := {
  plans : list WorkoutPlan;
  editing : option WorkoutPlan
}.

Definition string_of_Z (z : Z) : string :=
  DecimalString.NilZero.string_of_int (Z.to_int z).

(** [`Plan must total 45 minutes. Currently ${sum}.`]. *)
Definition alert_text (sum : Z) : string :=
  ("Plan must total 45 minutes. Currently " ++ string_of_Z sum ++ ".")%string.

(** [savePlan]: the next state and the alert shown, if any. *)
Definition savePlan (st : state) : state * option string :=
  match editing st with
  | None => (st, None)
  | Some ed =>
      let sum := fold_left (fun a b => a + minutes b) (blocks ed) 0 in
      if negb (sum =? 45) then (st, Some (alert_text sum))
      else
        let exists_ :=
          existsb (fun p => String.eqb (plan_id p) (plan_id ed)) (plans st) in
        let next :=
          if exists_
          then map (fun p => if String.eqb (plan_id p) (plan_id ed)
                             then ed else p) (plans st)
          else ed :: plans st in
        ({| plans := next; editing := None |}, None)
  end.

Definition removePlan (i : string) (st : state) : state :=
  {| plans := filter (fun p => negb (String.eqb (plan_id p) i)) (plans st);
     editing := editing st |}.

End Instructor.

(* ================================================================== *)
(** ** Notions the statements use *)

(** A plan equal to another up to the [higherIsBetter] flags of its
    blocks: the flags are erased and the rest compared. *)
Definition erase_flag_metric (m : Metric) : Metric :=
  {| kind := kind m; label := label m; higherIsBetter := None |}.

Definition erase_flag_block (b : Block) : Block :=
  {| id := id b; name := name b; minutes := minutes b;
     intensity := intensity b;
     metric := option_map erase_flag_metric (metric b);
     target := target b; notes := notes b |}.

Definition erase_flags (p : WorkoutPlan) : WorkoutPlan :=
  {| plan_id := plan_id p; title := title p; tags := tags p;
     blocks := map erase_flag_block (blocks p); author := author p |}.

(** Results of [computeImprovement] compared key by key, numbers as
    values. *)
Definition opt_num_eq (x y : option Js.number) : Prop :=
  match x, y with
  | Some a, Some b => Js.num_eq a b
  | None, None => True
  | _, _ => False
  end.

Definition improvement_eq (r s : Student.improvement) : Prop :=
  opt_num_eq (Student.baseline r) (Student.baseline s) /\
  opt_num_eq (Student.latest r) (Student.latest s) /\
  opt_num_eq (Student.percent r) (Student.percent s).

(** Every stored plan totals 45 minutes. *)
Definition all_45 (ps : list WorkoutPlan) : Prop :=
  Forall (fun p => Timer.totalSec (blocks p) = 2700) ps.

(* ================================================================== *)
(** ** Concrete plans, sessions and states *)

(** The plan of the example scenario: 10, 30 and 5 minutes. *)
Definition example_plan : list Block := DEFAULT_BLOCKS "a" "b" "c".

(** Its second block alone: 30 minutes. *)
Definition example_plan_tail : list Block :=
  firstn 1 (skipn 1 example_plan).

(** A plan whose last segment lasts zero minutes. *)
Definition zero_tail_plan : list Block :=
  [ {| id := "w"; name := "Work"; minutes := 10; intensity := high;
       metric := None; target := None; notes := None |};
    {| id := "z"; name := "Pause"; minutes := 0; intensity := low;
       metric := None; target := None; notes := None |} ].

(** The example plan as a saved plan, and the same plan with the flag
    of every metric turned off. *)
Definition demo_plan : WorkoutPlan :=
  {| plan_id := "p"; title := "Baseline 45"; tags := [];
     blocks := example_plan; author := "Instructor Team" |}.

Definition lower_is_better (b : Block) : Block :=
  {| id := id b; name := name b; minutes := minutes b;
     intensity := intensity b;
     metric := option_map (fun m => {| kind := kind m; label := label m;
                                       higherIsBetter := Some false |})
                          (metric b);
     target := target b; notes := notes b |}.

Definition demo_plan_flipped : WorkoutPlan :=
  {| plan_id := "p"; title := "Baseline 45"; tags := [];
     blocks := map lower_is_better example_plan;
     author := "Instructor Team" |}.

(** A plan under edit that totals 40 minutes. *)
Definition short_plan : WorkoutPlan :=
  {| plan_id := "q"; title := "New Plan"; tags := [];
     blocks := zero_tail_plan ++ example_plan_tail; author := "You" |}.

(** The student dashboard on [demo_plan] after [elapsed] seconds, with
    one numeric, one NaN and one undefined metric input. *)
Definition demo_student (elapsed : Q) : Student.state :=
  {| Student.plans :=
       [ demo_plan ];
     Student.selectedId := "p";
     Student.timer := {| Timer.isRunning := true; Timer.elapsedSec := elapsed;
                         Timer.lastTick := None |};
     Student.studentName := "";
     Student.rpe_input := 5;
     Student.notes_input := "";
     Student.metricInputs :=
       [ ("a"%string, Js.VNum (Js.Fin 30)); ("b"%string, Js.VNum Js.NaN);
         ("c"%string, Js.VUndefined) ] |}.

(** A session of plan [p] that recorded [v] for block [bid]. *)
Definition session (i p bid : string) (v : Q) : SessionLog :=
  {| log_id := i; userId := None; planId := p; date := "";
     duration := Js.Fin 45; rpe := 5; log_notes := "";
     metrics := [ {| blockId := bid; value := Js.Fin v |} ] |}.

(* ================================================================== *)
(** ** The timer driven by its events *)

Module Engine.

(** What reaches the hook: the three controls, and an animation frame
    with its timestamp in milliseconds. *)
Inductive event : Type :=
| Start
| Pause
| Reset
| Frame (t : Q).

(** A frame is requested only while [isRunning] holds and is cancelled
    when it stops holding; a frame on a stopped timer does not occur. *)
Definition step (total : Q) (s : Timer.state) (ev : event) : Timer.state :=
  match ev with
  | Start => Timer.start s
  | Pause => Timer.pause s
  | Reset => Timer.reset s
  | Frame t => if Timer.isRunning s then Timer.loop total t s else s
  end.

Definition run (total : Q) (evs : list event) (s : Timer.state)
  : Timer.state :=
  fold_left (step total) evs s.

(** The frames that take effect carry timestamps that do not
    decrease. *)
Fixpoint clock_ok (total : Q) (s : Timer.state) (evs : list event) : bool :=
  match evs with
  | [] => true
  | ev :: rest =>
      match ev, Timer.lastTick s with
      | Frame t, Some l => negb (Timer.isRunning s) || Qle_bool l t
      | _, _ => true
      end && clock_ok total (step total s ev) rest
  end.

Definition is_reset (ev : event) : bool :=
  match ev with
  | Reset => true
  | _ => false
  end.

End Engine.

(* ================================================================== *)
(** ** Timer display: [TimerDisplay] *)

Module Display.

(** Truncation toward zero. *)
Definition trunc (q : Q) : Z :=
  if Qle_bool 0 q then Qfloor q else Qceiling q.

(** [a % b] on finite numbers, [b] not zero: the remainder takes the
    sign of [a]. *)
Definition rem (a b : Q) : Q := a - b * inject_Z (trunc (a / b)).

(** [s.padStart(n, "0")]. *)
Definition padStart0 (n : nat) (s : string) : string :=
  (String.concat "" (repeat "0" (n - String.length s)) ++ s)%string.

(** [fmt]: minutes and seconds, two digits each at least. *)
Definition fmt (s : Q) : string :=
  let mm := Qfloor (s / 60) in
  let ss := Qfloor (rem s 60) in
  (padStart0 2 (Instructor.string_of_Z mm) ++ ":" ++
   padStart0 2 (Instructor.string_of_Z ss))%string.

End Display.

(* ================================================================== *)
(** ** Instructor dashboard: the plan under edit *)

Module Editor.

Import Instructor.

(** [l.map((x, i) => i === idx ? nb : x)], counting from [i]. *)
Fixpoint replace_from {A : Type} (i idx : nat) (nb : A) (l : list A)
  : list A :=
  match l with
  | [] => []
  | x :: rest =>
      (if (i =? idx)%nat then nb else x) :: replace_from (S i) idx nb rest
  end.

(** [l.filter((_, i) => i !== idx)], counting from [i]. *)
Fixpoint drop_from {A : Type} (i idx : nat) (l : list A) : list A :=
  match l with
  | [] => []
  | x :: rest =>
      if (i =? idx)%nat then drop_from (S i) idx rest
      else x :: drop_from (S i) idx rest
  end.

Definition with_blocks (p : WorkoutPlan) (bs : list Block) : WorkoutPlan :=
  {| plan_id := plan_id p; title := title p; tags := tags p;
     blocks := bs; author := author p |}.

(** [startNew]; the four ids are the ones [uid()] draws. *)
Definition startNew (pid n1 n2 n3 : string) (st : state) : state :=
  {| plans := plans st;
     editing := Some {| plan_id := pid; title := "New Plan"; tags := [];
                        blocks := DEFAULT_BLOCKS n1 n2 n3;
                        author := "You" |} |}.

(** The Edit button of a plan card: [setEditing(p)]. *)
Definition beginEdit (p : WorkoutPlan) (st : state) : state :=
  {| plans := plans st; editing := Some p |}.

(** The Cancel button: [setEditing(null)]. *)
Definition cancel (st : state) : state :=
  {| plans := plans st; editing := None |}.

(** The handlers below are rendered only while a plan is under edit. *)
Definition on_editing (f : WorkoutPlan -> WorkoutPlan) (st : state) : state :=
  match editing st with
  | Some ed => {| plans := plans st; editing := Some (f ed) |}
  | None => st
  end.

(** [onChange] of the block editor at position [idx]. *)
Definition changeBlock (idx : nat) (nb : Block) : state -> state :=
  on_editing (fun ed => with_blocks ed (replace_from 0 idx nb (blocks ed))).

(** [onDelete] of the block editor at position [idx]. *)
Definition deleteBlock (idx : nat) : state -> state :=
  on_editing (fun ed => with_blocks ed (drop_from 0 idx (blocks ed))).

(** The Add Block button; [fresh] is the id drawn. *)
Definition addBlock (fresh : string) : state -> state :=
  on_editing (fun ed =>
    with_blocks ed
      (blocks ed ++
       [ {| id := fresh; name := "New Block"; minutes := 0;
            intensity := moderate; metric := None; target := None;
            notes := Some ""%string |} ])).

(** The minutes field of block [idx] set to [v]:
    [onChange({ ...block, minutes: v })]. *)
Definition with_minutes (b : Block) (v : Z) : Block :=
  {| id := id b; name := name b; minutes := v; intensity := intensity b;
     metric := metric b; target := target b; notes := notes b |}.

End Editor.

(* ================================================================== *)
(** ** Student dashboard: the chart of sessions *)

Module Chart.

Record point : Type := {
  point_name : string;
  Minutes : Js.number;
  RPE : Z
}.

(** [l.slice(-n)]. *)
Definition slice_last {A : Type} (n : nat) (l : list A) : list A :=
  skipn (List.length l - n) l.

Section ChartData.

(** [new Date(d).toLocaleDateString()], which depends on the locale. *)
Variable toLocaleDateString : string -> string.

Definition point_of (l : SessionLog) : point :=
  {| point_name := toLocaleDateString (date l);
     Minutes := duration l;
     RPE := rpe l |}.

(** [chartData]: [myLogs] filtered once more by plan, its last ten
    entries, one point each. *)
Definition chartData (logs : list SessionLog) (sel : option WorkoutPlan)
  : list point :=
  let mine :=
    slice_last 10
      (filter (fun l => match sel with
                        | Some p => String.eqb (planId l) (plan_id p)
                        | None => false
                        end) (Student.myLogs logs sel)) in
  map point_of mine.

End ChartData.

End Chart.

(* ================================================================== *)
(** ** Binary64 arithmetic *)

Module F64.

Local Open Scope Q_scope.

(** For [x > 0], the integer [k] with [2^k <= x < 2^(k+1)]. *)
Definition ilog2 (x : Q) : Z :=
  let k := (Z.log2 (Qnum x) - Z.log2 (Z.pos (Qden x)))%Z in
  if Qle_bool (2 ^ k) x then k else (k - 1)%Z.

(** The nearest integer, a tie going to the even one. *)
Definition rne (q : Q) : Z :=
  let f := Qfloor q in
  match Qcompare (q - inject_Z f) (1 # 2) with
  | Lt => f
  | Gt => (f + 1)%Z
  | Eq => if Z.even f then f else (f + 1)%Z
  end.

(** Exponent of the unit in the last place at [x]: 53 significant bits,
    and no finer than [2^-1074]. *)
Definition ulp_exp (x : Q) : Z := Z.max (ilog2 (Qabs x) - 52) (-1074).

(** The nearest multiple of the unit in the last place. *)
Definition nearest (x : Q) : Q :=
  let e := ulp_exp x in inject_Z (rne (x / 2 ^ e)) * 2 ^ e.

(** The double an exact result is delivered as: an infinity from
    [2^1024] on. *)
Definition round (x : Q) : Js.number :=
  let r := nearest x in
  if Qle_bool (2 ^ 1024) (Qabs r)
  then Js.inf_of_sign (Qle_bool 0 x)
  else Js.Fin (Qred r).

Definition add (x y : Js.number) : Js.number :=
  match x, y with
  | Js.Fin a, Js.Fin b => round (a + b)
  | _, _ => Js.add x y
  end.

Definition sub (x y : Js.number) : Js.number :=
  match x, y with
  | Js.Fin a, Js.Fin b => round (a - b)
  | _, _ => Js.sub x y
  end.

Definition mul (x y : Js.number) : Js.number :=
  match x, y with
  | Js.Fin a, Js.Fin b => round (a * b)
  | _, _ => Js.mul x y
  end.

Definition div (x y : Js.number) : Js.number :=
  match x, y with
  | Js.Fin a, Js.Fin b =>
      if Qeq_bool b 0 then Js.div x y else round (a / b)
  | _, _ => Js.div x y
  end.

End F64.

(* ================================================================== *)
(** ** The percentage and the improvement figure as executed *)

Module Page64.

(** [Math.round((elapsedSec / totalSec) * 100)]. *)
Definition percent (e total : Q) : Js.number :=
  Js.Math_round (F64.mul (F64.div (Js.Fin e) (Js.Fin total)) (Js.Fin 100)).

(** The double [(elapsedSec / totalSec) * 100] handed to [Math.round],
    when both operations stay finite. *)
Definition percent_value (e total : Q) : Q :=
  F64.nearest (F64.nearest (e / total) * 100).

(** [computeImprovement(blockId)] over the logs read and the selected
    plan. *)
Definition computeImprovement (logs : list SessionLog)
  (sel : option WorkoutPlan) (bid : string) : Student.improvement :=
  let series :=
    Student.numbers (map (Student.metric_of bid) (Student.myLogs logs sel)) in
  if (List.length series <? 2)%nat then Student.no_improvement
  else
    match nth_error series 0, nth_error series (List.length series - 1) with
    | Some b, Some l =>
        if negb (Js.truthy b) || Js.is_zero b
        then {| Student.baseline := Some b; Student.latest := Some l;
                Student.percent := None |}
        else {| Student.baseline := Some b; Student.latest := Some l;
                Student.percent :=
                  Some (F64.mul (F64.div (F64.sub l b) b) (Js.Fin 100)) |}
    | _, _ => Student.no_improvement
    end.

(** How far rounding can move [(elapsedSec / totalSec) * 100] away from
    the exact value, for 0 <= elapsedSec <= totalSec. *)
Definition slack : Q := 1 # 10000000000000.

End Page64.

(** A number that is not negative, and one that is not positive; NaN is
    neither. *)
Definition num_nonneg (x : Js.number) : Prop :=
  match x with
  | Js.Fin q => (0 <= q)%Q
  | Js.PosInf => True
  | _ => False
  end.

Definition num_nonpos (x : Js.number) : Prop :=
  match x with
  | Js.Fin q => (q <= 0)%Q
  | Js.NegInf => True
  | _ => False
  end.

(** Two sessions of plan "p" for block "b", listed as the store would
    be read, first the one that gives the baseline. *)
Definition two_sessions (first last : Q) : list SessionLog :=
  [ {| log_id := "s1"; userId := None; planId := "p"; date := "";
       duration := Js.Fin 45; rpe := 5; log_notes := "";
       metrics := [ {| blockId := "b"; value := Js.Fin first |} ] |};
    {| log_id := "s2"; userId := None; planId := "p"; date := "";
       duration := Js.Fin 45; rpe := 5; log_notes := "";
       metrics := [ {| blockId := "b"; value := Js.Fin last |} ] |} ].

(* ================================================================== *)
(** ** The plan lists the instructor dashboard can reach *)

(** From the list [start]: saving, removing, and any change of the plan
    under edit (new plan, edit, cancel, block and field edits). *)
Inductive reachable (start : list WorkoutPlan) : Instructor.state -> Prop :=
| reach_start :
    reachable start {| Instructor.plans := start; Instructor.editing := None |}
| reach_save (st : Instructor.state) :
    reachable start st -> reachable start (fst (Instructor.savePlan st))
| reach_remove (i : string) (st : Instructor.state) :
    reachable start st -> reachable start (Instructor.removePlan i st)
| reach_edit (st : Instructor.state) (ed : option WorkoutPlan) :
    reachable start st ->
    reachable start {| Instructor.plans := Instructor.plans st;
                       Instructor.editing := ed |}.

(** Sessions of plan "p" numbered in the order they were saved, each
    lasting as many minutes as its number. *)
Definition numbered_session (n : nat) : SessionLog :=
  {| log_id := "s"; userId := None; planId := "p"; date := "";
     duration := Js.Fin (inject_Z (Z.of_nat n)); rpe := 5; log_notes := "";
     metrics := [ {| blockId := "b"; value := Js.Fin (inject_Z (Z.of_nat n)) |} ] |}.

(** A 45-minute plan "q" under edit next to the stored [demo_plan]. *)
Definition full_plan : WorkoutPlan :=
  {| plan_id := "q"; title := "New Plan"; tags := [];
     blocks := DEFAULT_BLOCKS "x" "y" "z"; author := "You" |}.

(* ================================================================== *)
(** * Properties *)

Example ex_total : Timer.totalSec example_plan = 2700.
Proof. reflexivity. Qed.

Example ex_current :
  Timer.current example_plan 1500 =
  Some {| Timer.c_id := "b"; Timer.c_start := 600; Timer.c_end := 2400;
          Timer.c_name := "Main Set"; Timer.c_intensity := moderate |}.
Proof. reflexivity. Qed.

Example ex_percent : Timer.percent 1500 2700 = Js.Fin 56.
Proof. reflexivity. Qed.

Example ex_percent_nan : Timer.percent 0 0 = Js.NaN.
Proof. reflexivity. Qed.

Example ex_alert :
  Instructor.alert_text (-5) = "Plan must total 45 minutes. Currently -5."%string.
Proof. reflexivity. Qed.

(* ------------------------------------------------------------------ *)
(** ** Numbers *)

Section NumberFacts.

Local Open Scope Q_scope.

Lemma Qltb_lt (x y : Q) : Js.Qltb x y = true <-> x < y.
Proof.
  unfold Js.Qltb. rewrite negb_true_iff.
  destruct (Qle_bool y x) eqn:E.
  - apply Qle_bool_iff in E. split; [discriminate | intro H].
    exfalso. exact (Qlt_not_le _ _ H E).
  - split; [intros _ | reflexivity].
    apply Qnot_le_lt. intro H. apply Qle_bool_iff in H. congruence.
Qed.

Lemma Qeq_bool_false (x y : Q) : ~ x == y -> Qeq_bool x y = false.
Proof.
  intro H. destruct (Qeq_bool x y) eqn:E; [|reflexivity].
  apply Qeq_bool_iff in E. contradiction.
Qed.

(** [Math.round] picks the nearest integer, a half going up. *)
Lemma round_Q_nearest (q : Q) :
  q - (1 # 2) < inject_Z (Js.round_Q q) <= q + (1 # 2).
Proof.
  unfold Js.round_Q. split.
  - pose proof (Qlt_floor (q + (1 # 2))) as H.
    rewrite inject_Z_plus in H. change (inject_Z 1) with 1 in H. lra.
  - apply Qfloor_le.
Qed.

Lemma round_Q_comp (p q : Q) : p == q -> Js.round_Q p = Js.round_Q q.
Proof.
  intro H. unfold Js.round_Q. apply Qfloor_comp. rewrite H. reflexivity.
Qed.

Lemma round_Q_mono (p q : Q) : p <= q -> (Js.round_Q p <= Js.round_Q q)%Z.
Proof.
  intro H. unfold Js.round_Q. apply Qfloor_resp_le. lra.
Qed.

Lemma round_Q_int (z : Z) : Js.round_Q (inject_Z z) = z.
Proof.
  unfold Js.round_Q.
  pose proof (Qfloor_le (inject_Z z + (1 # 2))) as Hlo.
  pose proof (Qlt_floor (inject_Z z + (1 # 2))) as Hhi.
  set (f := Qfloor (inject_Z z + (1 # 2))) in *.
  assert (inject_Z f < inject_Z (z + 1)) as H1.
  { rewrite inject_Z_plus. change (inject_Z 1) with 1. lra. }
  assert (inject_Z z < inject_Z (f + 1)) as H2.
  { rewrite inject_Z_plus in Hhi |- *. change (inject_Z 1) with 1 in *. lra. }
  rewrite <- Zlt_Qlt in H1, H2. lia.
Qed.

End NumberFacts.

(* ------------------------------------------------------------------ *)
(** ** Timer: tick and percent *)

Section TickFacts.

Local Open Scope Q_scope.

Lemma tick_le_total (e dt total : Q) : Timer.tick e dt total <= total.
Proof. unfold Timer.tick. apply Q.le_min_r. Qed.

(** The first frame after a start sees no previous timestamp and adds
    nothing. *)
Lemma loop_first_frame (total t : Q) (s : Timer.state) :
  Timer.lastTick s = None ->
  Timer.elapsedSec s <= total ->
  Timer.elapsedSec (Timer.loop total t s) == Timer.elapsedSec s.
Proof.
  intros Hl He. unfold Timer.loop, Timer.tick. rewrite Hl. simpl.
  destruct (Q.min_spec (Timer.elapsedSec s + (t - t) / 1000) total)
    as [[_ ->] | [Hle ->]].
  - field.
  - assert ((t - t) / 1000 == 0) as Hz by field. lra.
Qed.

(** With timestamps that do not decrease, a frame never rewinds. *)
Lemma loop_monotone_clock (total t l : Q) (s : Timer.state) :
  Timer.lastTick s = Some l -> l <= t ->
  0 <= Timer.elapsedSec s <= total ->
  Timer.elapsedSec s <= Timer.elapsedSec (Timer.loop total t s) <= total.
Proof.
  intros Hl Hlt He. unfold Timer.loop, Timer.tick. rewrite Hl. simpl.
  assert (0 <= (t - l) / 1000) as Hd.
  { apply Qle_shift_div_l; lra. }
  split; [apply Q.min_glb; lra | apply Q.le_min_r].
Qed.




End TickFacts.

Section PercentFacts.

Local Open Scope Q_scope.

Lemma totalMinutes_acc (bs : list Block) (a : Z) :
  fold_left (fun a b => (a + Timer.minutes_or_zero b)%Z) bs a =
  (a + Layout.sum_minutes bs)%Z.
Proof.
  revert a. induction bs as [|b bs IH]; intro a; simpl.
  - lia.
  - rewrite IH. unfold Timer.minutes_or_zero.
    destruct (Z.eqb_spec (minutes b) 0); lia.
Qed.

(** [totalSec] is derived from the blocks: sixty times the sum of their
    minutes. *)
Lemma totalSec_sum (bs : list Block) :
  Timer.totalSec bs = (60 * Layout.sum_minutes bs)%Z.
Proof.
  unfold Timer.totalSec, Timer.totalMinutes. rewrite totalMinutes_acc. lia.
Qed.

Lemma percent_finite (e total : Q) :
  ~ total == 0 ->
  Timer.percent e total = Js.Fin (inject_Z (Js.round_Q (100 * e / total))).
Proof.
  intro Ht. unfold Timer.percent. simpl.
  rewrite (Qeq_bool_false _ _ Ht). simpl.
  do 2 f_equal. apply round_Q_comp. field. exact Ht.
Qed.

End PercentFacts.

(* ------------------------------------------------------------------ *)
(** ** Timer: the cumulative layout and the current segment *)

Section LayoutFacts.

Import Timer Layout.

Lemma cumulative_fold (bs : list Block) (acc : Z) (arr : list cum) :
  fold_left cumulative_step bs (acc, arr) =
  ((acc + sum_minutes bs)%Z, arr ++ cumulative_from acc bs).
Proof.
  revert acc arr. induction bs as [|b bs IH]; intros acc arr; simpl.
  - rewrite Z.add_0_r, app_nil_r. reflexivity.
  - rewrite IH. rewrite <- app_assoc. simpl. f_equal. lia.
Qed.

Lemma cumulative_rec (bs : list Block) :
  cumulative bs = cumulative_from 0 bs.
Proof. unfold cumulative. rewrite cumulative_fold. reflexivity. Qed.

Lemma length_cumulative_from (bs : list Block) (acc : Z) :
  List.length (cumulative_from acc bs) = List.length bs.
Proof.
  revert acc. induction bs as [|b bs IH]; intro acc; simpl; [|rewrite IH];
    reflexivity.
Qed.

Lemma length_cumulative (bs : list Block) :
  List.length (cumulative bs) = List.length bs.
Proof. rewrite cumulative_rec. apply length_cumulative_from. Qed.

Lemma nth_cumulative_from (bs : list Block) (acc : Z) (i : nat) :
  nth_error (cumulative_from acc bs) i =
  option_map (entry (acc + sum_minutes (firstn i bs))) (nth_error bs i).
Proof.
  revert acc i. induction bs as [|b bs IH]; intros acc i.
  - destruct i; reflexivity.
  - destruct i as [|i]; simpl.
    + rewrite Z.add_0_r. reflexivity.
    + rewrite IH. rewrite Z.add_assoc. reflexivity.
Qed.

Lemma sum_firstn_S (bs : list Block) (i : nat) (b : Block) :
  nth_error bs i = Some b ->
  sum_minutes (firstn (S i) bs) = (sum_minutes (firstn i bs) + minutes b)%Z.
Proof.
  revert i. induction bs as [|x bs IH]; intros i H.
  - destruct i; discriminate.
  - destruct i as [|i].
    + simpl in H. injection H as ->. simpl. lia.
    + simpl in H. specialize (IH i H).
      unfold sum_minutes in *. rewrite !firstn_cons.
      cbn [fold_right]. rewrite IH. lia.
Qed.

(** Entry [i] of [cumulative] stands for block [i] and spans its
    interval. *)
Lemma nth_cumulative (bs : list Block) (i : nat) :
  nth_error (cumulative bs) i = option_map (entry_at bs i) (nth_error bs i).
Proof.
  rewrite cumulative_rec, nth_cumulative_from.
  destruct (nth_error bs i) as [b|] eqn:E; [|reflexivity].
  simpl. f_equal. unfold entry, entry_at, seg_start.
  rewrite (sum_firstn_S _ _ _ E). reflexivity.
Qed.

Lemma seg_start_all (bs : list Block) :
  seg_start bs (List.length bs) = totalSec bs.
Proof.
  unfold seg_start. rewrite firstn_all, totalSec_sum. lia.
Qed.

Lemma sum_firstn_le (bs : list Block) (i : nat) :
  nonneg bs -> (sum_minutes (firstn i bs) <= sum_minutes bs)%Z.
Proof.
  intro H. revert i. induction H as [|b bs Hb Hbs IH]; intro i.
  - destruct i; simpl; lia.
  - destruct i as [|i]; simpl.
    + assert (0 <= sum_minutes bs)%Z by (specialize (IH 0%nat); simpl in IH; lia).
      lia.
    + specialize (IH i). lia.
Qed.

Lemma seg_start_le_total (bs : list Block) (i : nat) :
  nonneg bs -> (seg_start bs i <= seg_start bs (List.length bs))%Z.
Proof.
  intro H. unfold seg_start. rewrite firstn_all.
  pose proof (sum_firstn_le bs i H). lia.
Qed.

Lemma contains_iff (e : Q) (c : cum) :
  contains e c = true <->
  (inject_Z (c_start c) <= e < inject_Z (c_end c))%Q.
Proof.
  unfold contains. rewrite andb_true_iff, Qle_bool_iff, Qltb_lt. reflexivity.
Qed.

Lemma contains_entry_at (bs : list Block) (i : nat) (b : Block) (e : Q) :
  nth_error bs i = Some b ->
  contains e (entry_at bs i b) = true <-> in_segment bs i e.
Proof.
  intro H. rewrite contains_iff. unfold in_segment. simpl.
  assert (i < List.length bs)%nat.
  { apply nth_error_Some. congruence. }
  tauto.
Qed.

End LayoutFacts.

Section FindFacts.

Context {A : Type} (p : A -> bool).

(** [find] returns the first element that satisfies the test. *)
Lemma find_first (l : list A) (c : A) :
  find p l = Some c ->
  exists i, nth_error l i = Some c /\ p c = true /\
    forall j x, (j < i)%nat -> nth_error l j = Some x -> p x = false.
Proof.
  induction l as [|a l IH]; simpl; [discriminate|].
  destruct (p a) eqn:Ea.
  - intros [= <-]. exists 0%nat. repeat split; trivial.
    intros j x Hj. lia.
  - intro H. destruct (IH H) as (i & Hi & Hc & Hbefore).
    exists (S i). repeat split; trivial.
    intros [|j] x Hj Hx; simpl in Hx.
    + congruence.
    + apply (Hbefore j); [lia | exact Hx].
Qed.

Lemma find_all_false (l : list A) :
  (forall x, In x l -> p x = false) -> find p l = None.
Proof.
  induction l as [|a l IH]; intro H; simpl; [reflexivity|].
  rewrite (H a (or_introl eq_refl)). apply IH.
  intros x Hx. apply H. right. exact Hx.
Qed.

End FindFacts.

Section CurrentFacts.

Import Timer Layout.
Local Open Scope Q_scope.

Lemma seg_start_0 (bs : list Block) : seg_start bs 0 = 0%Z.
Proof. reflexivity. Qed.

(** The intervals, laid end to end, cover everything from 0 up to the
    start of segment [n]. *)
Lemma segments_cover (bs : list Block) (e : Q) (n : nat) :
  0 <= e -> e < inject_Z (seg_start bs n) ->
  exists i, (i < n)%nat /\
    inject_Z (seg_start bs i) <= e < inject_Z (seg_start bs (S i)).
Proof.
  intro H0. induction n as [|n IH]; intro Hn.
  - rewrite seg_start_0 in Hn. change (inject_Z 0) with 0 in Hn. lra.
  - destruct (Qlt_le_dec e (inject_Z (seg_start bs n))) as [Hlt | Hge].
    + destruct (IH Hlt) as (i & Hi & Hin). exists i. split; [lia | exact Hin].
    + exists n. split; [lia | split; assumption].
Qed.

Lemma cumulative_entry (bs : list Block) (i : nat) (c : cum) :
  nth_error (cumulative bs) i = Some c ->
  exists b, nth_error bs i = Some b /\ c = entry_at bs i b.
Proof.
  rewrite nth_cumulative. destruct (nth_error bs i) as [b|]; simpl;
    [|discriminate].
  intros [= <-]. exists b. split; reflexivity.
Qed.

Lemma cumulative_has_entry (bs : list Block) (i : nat) (b : Block) :
  nth_error bs i = Some b -> In (entry_at bs i b) (cumulative bs).
Proof.
  intro H. apply (nth_error_In _ i). rewrite nth_cumulative, H. reflexivity.
Qed.

(** When some interval contains [e], [find] succeeds. *)
Lemma find_in_segment (bs : list Block) (e : Q) (i : nat) :
  in_segment bs i e -> find (contains e) (cumulative bs) <> None.
Proof.
  intros Hin Hnone.
  destruct (nth_error bs i) as [b|] eqn:Eb.
  - pose proof (find_none _ _ Hnone _ (cumulative_has_entry bs i b Eb)) as Hf.
    apply (contains_entry_at bs i b e Eb) in Hin. congruence.
  - destruct Hin as [Hlt _]. apply nth_error_None in Eb. lia.
Qed.

(** The fallback: with no interval found, the last entry, which stands
    for the last block. *)
Lemma current_fallback (bs : list Block) (e : Q) :
  find (contains e) (cumulative bs) = None ->
  current bs e = nth_error (cumulative bs) (List.length bs - 1).
Proof.
  intro H. unfold current, current_of. rewrite H. unfold last_entry.
  rewrite <- (length_cumulative bs).
  destruct (cumulative bs); reflexivity.
Qed.

End CurrentFacts.

Section CurrentSegment.

Import Timer Layout.
Local Open Scope Q_scope.

(** C4.  A plan without segments has no current segment.  For a plan
    with at least one segment: when 0 <= elapsed < total, [current] is
    the entry of the first segment, in declaration order, whose
    half-open interval contains the elapsed time; when the durations
    are non-negative and the elapsed time equals or exceeds the end of
    the final interval (which is [totalSec]), [current] is the entry of
    the last segment.  For the plan of 10, 30 and 5 minutes at 1500
    seconds, [current] is the second segment, from 600 to 2400, and
    [percent] is 56. *)
Theorem current_segment_spec (bs : list Block) (e : Q) :
  (bs = [] -> current bs e = None) /\
  (bs <> [] ->
     seg_start bs (List.length bs) = totalSec bs /\
     (0 <= e < inject_Z (totalSec bs) ->
        exists i b, nth_error bs i = Some b /\
          current bs e = Some (entry_at bs i b) /\
          in_segment bs i e /\
          forall j, (j < i)%nat -> ~ in_segment bs j e) /\
     (nonneg bs -> inject_Z (seg_start bs (List.length bs)) <= e ->
        exists b, nth_error bs (List.length bs - 1) = Some b /\
          current bs e = Some (entry_at bs (List.length bs - 1) b))) /\
  (current example_plan 1500 =
     Some {| c_id := "b"; c_start := 600; c_end := 2400;
             c_name := "Main Set"; c_intensity := moderate |} /\
   percent 1500 (inject_Z (totalSec example_plan)) = Js.Fin 56).
Proof.
  split; [intros ->; reflexivity|].
  split; [|split; reflexivity].
  intro Hne. split; [apply seg_start_all|]. split.
  - (* an interval contains the elapsed time *)
    intros [H0 Hlt]. rewrite <- seg_start_all in Hlt.
    destruct (segments_cover bs e _ H0 Hlt) as (k & Hk & Hin).
    assert (in_segment bs k e) as Hseg by (split; assumption).
    destruct (find (contains e) (cumulative bs)) as [c|] eqn:Ef;
      [|exfalso; exact (find_in_segment bs e k Hseg Ef)].
    destruct (find_first _ _ _ Ef) as (i & Hi & Hc & Hbefore).
    destruct (cumulative_entry bs i c Hi) as (b & Hb & ->).
    exists i, b. split; [exact Hb|]. split.
    { unfold current, current_of. rewrite Ef. reflexivity. }
    split; [apply (contains_entry_at bs i b e Hb); exact Hc|].
    intros j Hj Hinj.
    destruct (nth_error bs j) as [bj|] eqn:Ebj.
    + apply (contains_entry_at bs j bj e Ebj) in Hinj.
      rewrite (Hbefore j (entry_at bs j bj) Hj) in Hinj; [discriminate|].
      rewrite nth_cumulative, Ebj. reflexivity.
    + destruct Hinj as [Hl _]. apply nth_error_None in Ebj. lia.
  - (* at or past the end of the final interval *)
    intros Hnn Hge.
    assert (find (contains e) (cumulative bs) = None) as Ef.
    { apply find_all_false. intros c Hc.
      destruct (In_nth_error _ _ Hc) as [i Hi].
      destruct (cumulative_entry bs i c Hi) as (b & Hb & ->).
      destruct (contains e (entry_at bs i b)) eqn:E; [|reflexivity].
      apply contains_iff in E. simpl in E. destruct E as [_ E].
      pose proof (seg_start_le_total bs (S i) Hnn) as Hle.
      rewrite Zle_Qle in Hle. lra. }
    rewrite (current_fallback bs e Ef), nth_cumulative.
    destruct (nth_error bs (List.length bs - 1)) as [b|] eqn:Eb.
    + exists b. split; reflexivity.
    + apply nth_error_None in Eb. destruct bs; [congruence | simpl in Eb; lia].
Qed.

Lemma current_segment_spec_witness :
  exists i b, nth_error example_plan i = Some b /\
    current example_plan 1500 = Some (entry_at example_plan i b) /\
    in_segment example_plan i 1500 /\
    forall j, (j < i)%nat -> ~ in_segment example_plan j 1500.
Proof.
  destruct (current_segment_spec example_plan 1500) as (_ & H & _).
  assert (example_plan <> []) as Hne by discriminate.
  destruct (H Hne) as (_ & Hfirst & _).
  apply Hfirst. split; [discriminate | reflexivity].
Defined.

(** C10.  If [current] returns the entry of a segment whose duration is
    zero, then no interval was found ([find] came back empty, and no
    segment's half-open interval contains the elapsed time) and the
    entry is the one at the last position, reached through the
    fallback. *)
Theorem zero_duration_only_by_fallback
  (bs : list Block) (e : Q) (c : cum) (i : nat) (b : Block) :
  current bs e = Some c ->
  nth_error (cumulative bs) i = Some c ->
  nth_error bs i = Some b ->
  minutes b = 0%Z ->
  find (contains e) (cumulative bs) = None /\
  nth_error (cumulative bs) (List.length bs - 1) = Some c /\
  (exists bl, nth_error bs (List.length bs - 1) = Some bl /\
              c = entry_at bs (List.length bs - 1) bl) /\
  forall j, ~ in_segment bs j e.
Proof.
  intros Hcur Hc Hb Hm.
  assert (contains e c = false) as Hout.
  { destruct (cumulative_entry bs i c Hc) as (b' & Hb' & ->).
    destruct (contains e (entry_at bs i b')) eqn:E; [|reflexivity].
    apply contains_iff in E. simpl in E.
    assert (b' = b) as -> by congruence.
    unfold seg_start in E. rewrite (sum_firstn_S bs i b Hb), Hm in E.
    rewrite Z.add_0_r in E. lra. }
  assert (find (contains e) (cumulative bs) = None) as Ef.
  { destruct (find (contains e) (cumulative bs)) as [c'|] eqn:Ef;
      [|reflexivity].
    unfold current, current_of in Hcur. rewrite Ef in Hcur.
    injection Hcur as ->. apply find_some in Ef. destruct Ef as [_ Ef].
    congruence. }
  split; [exact Ef|].
  rewrite (current_fallback bs e Ef) in Hcur.
  split; [exact Hcur|]. split.
  - apply cumulative_entry. exact Hcur.
  - intros j Hj. exact (find_in_segment bs e j Hj Ef).
Qed.

Lemma zero_duration_only_by_fallback_witness :
  find (contains 600) (cumulative zero_tail_plan) = None /\
  nth_error (cumulative zero_tail_plan) 1 =
    Some {| c_id := "z"; c_start := 600; c_end := 600;
            c_name := "Pause"; c_intensity := low |} /\
  forall j, ~ in_segment zero_tail_plan j 600.
Proof.
  destruct (zero_duration_only_by_fallback zero_tail_plan 600
              {| c_id := "z"; c_start := 600; c_end := 600;
                 c_name := "Pause"; c_intensity := low |} 1
              {| id := "z"; name := "Pause"; minutes := 0; intensity := low;
                 metric := None; target := None; notes := None |}
              eq_refl eq_refl eq_refl eq_refl) as (H1 & H2 & _ & H3).
  split; [exact H1|]. split; [exact H2 | exact H3].
Defined.

End CurrentSegment.

(* ------------------------------------------------------------------ *)
(** ** The log store *)

Section CappedPrepend.

Context {A : Type} (n : nat).

Lemma firstn_app_firstn (a b : list A) :
  firstn n (a ++ firstn n b) = firstn n (a ++ b).
Proof.
  rewrite !firstn_app, firstn_firstn. do 2 f_equal. lia.
Qed.

(** Prepending and cutting at [n], over and over, is reversing and
    cutting once. *)
Lemma capped_fold (ls store : list A) :
  (List.length store <= n)%nat ->
  fold_left (fun st l => firstn n (l :: st)) ls store =
  firstn n (rev ls ++ store).
Proof.
  revert store. induction ls as [|l ls IH]; intros store H.
  - simpl. symmetry. apply firstn_all2. exact H.
  - cbn [fold_left rev]. rewrite IH by (rewrite length_firstn; lia).
    rewrite firstn_app_firstn, <- app_assoc. reflexivity.
Qed.

End CappedPrepend.

Section StoreFacts.

Import Store.

Lemma addLog_cons (log : SessionLog) (logs : list SessionLog) :
  addLog log logs = log :: firstn 499 logs.
Proof. unfold addLog. apply firstn_cons. Qed.

(** Whatever was saved, newest first, cut at 500. *)
Lemma saved_rev (ls : list SessionLog) :
  saved ls = firstn 500 (rev ls).
Proof.
  unfold saved, addLog. rewrite capped_fold by (cbn [List.length]; lia).
  rewrite app_nil_r. reflexivity.
Qed.

Lemma saved_cap (ls : list SessionLog) : (List.length (saved ls) <= 500)%nat.
Proof. rewrite saved_rev, length_firstn. lia. Qed.

(** C7.  After appending, the store holds the new log followed by the
    499 most recent of the old ones, hence at most 500 entries; a store
    of 500 loses exactly its oldest (last) entry, a smaller one loses
    nothing. *)
Theorem addLog_keeps_500 (log : SessionLog) (logs : list SessionLog) :
  (List.length (addLog log logs) <= 500)%nat /\
  addLog log logs = log :: firstn 499 logs /\
  (List.length logs = 500%nat -> addLog log logs = log :: removelast logs) /\
  ((List.length logs < 500)%nat -> addLog log logs = log :: logs).
Proof.
  split; [unfold addLog; rewrite length_firstn; lia|].
  split; [apply addLog_cons|].
  split; intro H; rewrite addLog_cons; f_equal.
  - rewrite removelast_firstn_len, H. reflexivity.
  - apply firstn_all2. lia.
Qed.

Lemma addLog_keeps_500_witness :
  addLog (session "new" "p" "b" 1) (repeat (session "old" "p" "b" 0) 500) =
  session "new" "p" "b" 1 :: removelast (repeat (session "old" "p" "b" 0) 500).
Proof.
  destruct (addLog_keeps_500 (session "new" "p" "b" 1)
              (repeat (session "old" "p" "b" 0) 500)) as (_ & _ & H & _).
  apply H. apply repeat_length.
Defined.

End StoreFacts.

(* ------------------------------------------------------------------ *)
(** ** Saving a session: [finish] *)

Section FinishFacts.

Import Student.

(** [Number(v) || 0] is never NaN. *)
Lemma coerced_not_NaN (v : Js.value) : Js.or_zero (Js.Number v) <> Js.NaN.
Proof.
  unfold Js.or_zero.
  destruct v as [[q| | |] | |]; simpl; try discriminate.
  destruct (Qeq_bool q 0); discriminate.
Qed.

(** A missing or non-numeric input is recorded as 0. *)
Lemma coerced_default (v : Js.value) :
  v = Js.VUndefined \/ v = Js.VNull \/ v = Js.VNum Js.NaN ->
  Js.or_zero (Js.Number v) = Js.Fin 0.
Proof. intros [-> | [-> | ->]]; reflexivity. Qed.

(** A number other than 0 and NaN is recorded as it is. *)
Lemma coerced_number (n : Js.number) :
  Js.truthy n = true -> Js.or_zero (Js.Number (Js.VNum n)) = n.
Proof. intro H. unfold Js.or_zero. simpl. rewrite H. reflexivity. Qed.

Lemma nth_finish_metrics (inputs : list (string * Js.value)) (i : nat) :
  nth_error (finish_metrics inputs) i =
  option_map (fun '(b, v) =>
                {| blockId := b; value := Js.or_zero (Js.Number v) |})
             (nth_error inputs i).
Proof. unfold finish_metrics. apply nth_error_map. Qed.

(** Without a plan to select, [selected.id] raises. *)
Lemma finish_without_plan (fresh now : string) (st : state)
  (logs : list SessionLog) :
  plans st = [] -> finish fresh now st logs = TypeError.
Proof.
  intro H. unfold finish, selected. rewrite H. reflexivity.
Qed.

Lemma selected_some (st : state) :
  plans st <> [] -> exists sel, selected st = Some sel.
Proof.
  intro H. unfold selected.
  destruct (find _ (plans st)) as [p|]; [exists p; reflexivity|].
  destruct (plans st) as [|p ps]; [congruence | exists p; reflexivity].
Qed.

(** With a plan selected, [finish] completes: it appends one log
    and resets the timer.  The log's duration is
    round(elapsedSec / 60); its metrics follow the inputs one to one,
    in order, each keeping its block id; a missing (undefined, null) or
    non-numeric (NaN) input is recorded as 0, any other number as it is,
    and no recorded value is NaN.  At 1200 elapsed seconds the duration
    is 20. *)
Theorem finish_builds_log (fresh now : string) (st : state)
  (sel : WorkoutPlan) (logs : list SessionLog) :
  selected st = Some sel ->
  let log := finish_log fresh now st sel in
  (exists st', finish fresh now st logs = Done (Store.addLog log logs, st') /\
               Timer.elapsedSec (timer st') = 0%Q /\
               Timer.isRunning (timer st') = false) /\
  duration log =
    Js.Fin (inject_Z (Js.round_Q (Timer.elapsedSec (timer st) / 60))) /\
  planId log = plan_id sel /\
  map blockId (metrics log) = map fst (metricInputs st) /\
  (forall i b v, nth_error (metricInputs st) i = Some (b, v) ->
     exists m, nth_error (metrics log) i = Some m /\ blockId m = b /\
       value m <> Js.NaN /\
       (v = Js.VUndefined \/ v = Js.VNull \/ v = Js.VNum Js.NaN ->
          value m = Js.Fin 0) /\
       (forall n, v = Js.VNum n -> Js.truthy n = true -> value m = n)) /\
  (Timer.elapsedSec (timer st) == 1200 -> duration log = Js.Fin 20)%Q.
Proof.
  intros Hsel log. split.
  { unfold finish. rewrite Hsel. eexists. split; [reflexivity|].
    split; reflexivity. }
  assert (duration log =
          Js.Fin (inject_Z (Js.round_Q (Timer.elapsedSec (timer st) / 60))))
    as Hd by reflexivity.
  split; [exact Hd|]. split; [reflexivity|]. split.
  { simpl. unfold finish_metrics. rewrite map_map.
    apply map_ext. intros [b v]. reflexivity. }
  split.
  - intros i b v Hi. simpl. rewrite nth_finish_metrics, Hi. simpl.
    eexists. split; [reflexivity|]. simpl.
    split; [reflexivity|]. split; [apply coerced_not_NaN|].
    split; [apply coerced_default|].
    intros n -> Hn. apply coerced_number. exact Hn.
  - intro He. rewrite Hd.
    rewrite (round_Q_comp _ (inject_Z 20)) by (rewrite He; reflexivity).
    rewrite round_Q_int. reflexivity.
Qed.

End FinishFacts.

Lemma finish_builds_log_witness :
  duration (Student.finish_log "id" "now" (demo_student 1200)
              demo_plan)
    = Js.Fin 20 /\
  map value (metrics (Student.finish_log "id" "now" (demo_student 1200)
              demo_plan))
    = [Js.Fin 30; Js.Fin 0; Js.Fin 0].
Proof.
  destruct (finish_builds_log "id" "now" (demo_student 1200)
              demo_plan [] eq_refl) as (_ & _ & _ & _ & _ & H).
  split; [apply H; reflexivity | reflexivity].
Defined.

(* ------------------------------------------------------------------ *)
(** ** Progress: [computeImprovement] *)

Section ImprovementFacts.

Import Student.
Local Open Scope Q_scope.

Lemma nth_error_last_of {A : Type} (b : A) (mid : list A) (l : A) :
  nth_error (b :: mid ++ [l]) (List.length (b :: mid ++ [l]) - 1) = Some l.
Proof.
  cbn [List.length]. rewrite Nat.sub_succ, Nat.sub_0_r, length_app.
  cbn [List.length]. replace (List.length mid + 1)%nat with (S (List.length mid)) by lia.
  cbn [nth_error]. rewrite nth_error_app2 by lia.
  rewrite Nat.sub_diag. reflexivity.
Qed.


Lemma improvement_of_ends (b : Js.number) (mid : list Js.number)
  (l : Js.number) :
  improvement_of (b :: mid ++ [l]) =
  if negb (Js.truthy b) || Js.is_zero b
  then {| baseline := Some b; latest := Some l; percent := None |}
  else {| baseline := Some b; latest := Some l;
          percent := Some (Js.mul (Js.div (Js.sub l b) b) (Js.Fin 100)) |}.
Proof.
  unfold improvement_of. rewrite nth_error_last_of.
  assert ((List.length (b :: mid ++ [l]) <? 2)%nat = false) as ->.
  { apply Nat.ltb_ge. cbn [List.length]. rewrite length_app. simpl. lia. }
  reflexivity.
Qed.

End ImprovementFacts.

Section SeriesOrder.

Import Student.
Local Open Scope Q_scope.

Lemma numbers_app (xs ys : list (option Js.number)) :
  numbers (xs ++ ys) = numbers xs ++ numbers ys.
Proof.
  induction xs as [|[x|] xs IH]; simpl; [|rewrite IH|]; auto.
Qed.

Lemma numbers_rev (xs : list (option Js.number)) :
  numbers (rev xs) = rev (numbers xs).
Proof.
  induction xs as [|[x|] xs IH]; simpl; [reflexivity| |];
    rewrite numbers_app, IH; simpl; [reflexivity | apply app_nil_r].
Qed.

(** The store lists the newest session first, and so does the series
    [computeImprovement] reads: it is the chronological series
    reversed. *)
Lemma series_newest_first (ls : list SessionLog) (sel : option WorkoutPlan)
  (bid : string) :
  (List.length ls <= 500)%nat ->
  series_of (Store.saved ls) sel bid = rev (series_of ls sel bid).
Proof.
  intro H. unfold series_of, myLogs. rewrite saved_rev.
  rewrite firstn_all2 by (rewrite length_rev; exact H).
  rewrite filter_rev, map_rev, numbers_rev. reflexivity.
Qed.


(** C9.  Two selected plans that differ at most in the [higherIsBetter]
    flags of their blocks give the same result, for every store and
    every block id. *)
Theorem improvement_ignores_flag (logs : list SessionLog)
  (p1 p2 : WorkoutPlan) (bid : string) :
  erase_flags p1 = erase_flags p2 ->
  computeImprovement logs (Some p1) bid =
  computeImprovement logs (Some p2) bid.
Proof.
  intro H.
  assert (plan_id p1 = plan_id p2) as Hid.
  { change (plan_id (erase_flags p1) = plan_id (erase_flags p2)).
    rewrite H. reflexivity. }
  unfold computeImprovement, series_of, myLogs. rewrite Hid. reflexivity.
Qed.

End SeriesOrder.

Lemma improvement_ignores_flag_witness :
  erase_flags demo_plan = erase_flags demo_plan_flipped /\
  demo_plan <> demo_plan_flipped /\
  Student.computeImprovement
    [session "s2" "p" "b" 15; session "s1" "p" "b" 10] (Some demo_plan) "b" =
  Student.computeImprovement
    [session "s2" "p" "b" 15; session "s1" "p" "b" 10]
    (Some demo_plan_flipped) "b".
Proof.
  split; [reflexivity|]. split; [discriminate|].
  apply (improvement_ignores_flag _ demo_plan demo_plan_flipped).
  reflexivity.
Defined.

(* ------------------------------------------------------------------ *)
(** ** Plan authoring: [savePlan] *)

Section SavePlanFacts.

Import Instructor.

Lemma sum_fold (bs : list Block) (a : Z) :
  fold_left (fun a b => a + minutes b) bs a = a + Layout.sum_minutes bs.
Proof.
  revert a. induction bs as [|b bs IH]; intro a; simpl.
  - lia.
  - rewrite IH. lia.
Qed.

(** C8.  Saving an edited plan whose minutes do not sum to 45 shows the
    alert and changes nothing: the stored plans and the plan under edit
    stay as they were. *)
Theorem savePlan_rejects (st : state) (ed : WorkoutPlan) :
  editing st = Some ed ->
  Layout.sum_minutes (blocks ed) <> 45 ->
  plans (fst (savePlan st)) = plans st /\
  fst (savePlan st) = st /\
  snd (savePlan st) = Some (alert_text (Layout.sum_minutes (blocks ed))).
Proof.
  intros He Hsum. unfold savePlan. rewrite He, sum_fold, Z.add_0_l.
  destruct (Z.eqb_spec (Layout.sum_minutes (blocks ed)) 45) as [E | _];
    [contradiction|].
  simpl. repeat split.
Qed.

Lemma savePlan_rejects_witness :
  plans (fst (savePlan {| plans := [demo_plan]; editing := Some short_plan |}))
    = [demo_plan] /\
  snd (savePlan {| plans := [demo_plan]; editing := Some short_plan |})
    = Some "Plan must total 45 minutes. Currently 40."%string.
Proof.
  destruct (savePlan_rejects {| plans := [demo_plan]; editing := Some short_plan |}
              short_plan eq_refl) as (H1 & _ & H2).
  - discriminate.
  - split; [exact H1 | rewrite H2; reflexivity].
Defined.

(** A plan enters the stored list through [savePlan] only with 45
    minutes, that is with [totalSec = 2700]. *)
Lemma savePlan_accepts_45 (st : state) (p : WorkoutPlan) :
  In p (plans (fst (savePlan st))) ->
  In p (plans st) \/ Timer.totalSec (blocks p) = 2700.
Proof.
  unfold savePlan. destruct (editing st) as [ed|]; [|left; assumption].
  rewrite sum_fold, Z.add_0_l.
  destruct (Z.eqb_spec (Layout.sum_minutes (blocks ed)) 45) as [E | _];
    simpl; [|left; assumption].
  assert (Timer.totalSec (blocks ed) = 2700) as Hed.
  { rewrite totalSec_sum, E. reflexivity. }
  destruct (existsb _ (plans st)); simpl.
  - rewrite in_map_iff. intros (q & Hq & Hin).
    destruct (String.eqb (plan_id q) (plan_id ed)); subst;
      [right; exact Hed | left; exact Hin].
  - intros [<- | Hin]; [right; exact Hed | left; exact Hin].
Qed.

Lemma savePlan_keeps_45 (st : state) :
  all_45 (plans st) -> all_45 (plans (fst (savePlan st))).
Proof.
  unfold all_45. rewrite !Forall_forall. intros H p Hp.
  destruct (savePlan_accepts_45 st p Hp) as [Hin | H45];
    [apply H; exact Hin | exact H45].
Qed.

Lemma removePlan_keeps_45 (i : string) (st : state) :
  all_45 (plans st) -> all_45 (plans (removePlan i st)).
Proof.
  unfold all_45, removePlan. rewrite !Forall_forall. intros H p Hp.
  simpl in Hp. apply filter_In in Hp. apply H. tauto.
Qed.

Lemma default_plans_45 (p1 p2 i1 i2 i3 j1 j2 j3 : string) :
  all_45 (DEFAULT_PLANS p1 p2 i1 i2 i3 j1 j2 j3).
Proof. repeat constructor. Qed.

(** Whatever the selection, the timer runs against 2700 seconds as long
    as the stored plans total 45 minutes each. *)
Lemma timer_total_2700 (d1 d2 d3 : string) (st : Student.state) :
  all_45 (Student.plans st) ->
  Timer.totalSec (Student.timer_blocks d1 d2 d3 st) = 2700.
Proof.
  unfold all_45. rewrite Forall_forall. intro H.
  unfold Student.timer_blocks, Student.selected.
  destruct (find _ (Student.plans st)) as [p|] eqn:Ef.
  - apply H. apply find_some in Ef. tauto.
  - destruct (Student.plans st) as [|p ps] eqn:Ep; simpl.
    + reflexivity.
    + apply H. left. reflexivity.
Qed.

End SavePlanFacts.

(* ================================================================== *)
(** * Further properties of the page *)

(* ------------------------------------------------------------------ *)
(** ** The timer under sequences of events *)

Section EngineFacts.

Import Timer Engine.
Local Open Scope Q_scope.

Lemma loop_first_delta (total t : Q) (s : state) :
  lastTick s = None ->
  elapsedSec (loop total t s) == Qmin (elapsedSec s) total.
Proof.
  intro Hl. unfold loop, tick. rewrite Hl. cbn [elapsedSec].
  apply Q.min_compat; [field | reflexivity].
Qed.

Lemma step_range (total : Q) (s : state) (ev : event) :
  0 <= elapsedSec s <= total ->
  clock_ok total s [ev] = true ->
  0 <= elapsedSec (step total s ev) <= total.
Proof.
  intros He Hc. destruct ev as [| | |t]; cbn [step].
  - unfold start. destruct (isRunning s); simpl; exact He.
  - exact He.
  - simpl. lra.
  - destruct (isRunning s) eqn:Er; [|exact He].
    destruct (lastTick s) as [l|] eqn:El.
    + cbn [clock_ok] in Hc. rewrite El, Er in Hc. simpl in Hc.
      rewrite andb_true_r in Hc. apply Qle_bool_iff in Hc.
      pose proof (loop_monotone_clock total t l s El Hc He). lra.
    + rewrite (loop_first_delta total t s El).
      split; [apply Q.min_glb; lra | apply Q.le_min_r].
Qed.

Lemma step_no_rewind (total : Q) (s : state) (ev : event) :
  0 <= elapsedSec s <= total ->
  clock_ok total s [ev] = true ->
  is_reset ev = false ->
  elapsedSec s <= elapsedSec (step total s ev).
Proof.
  intros He Hc Hr. destruct ev as [| | |t]; cbn [step]; try discriminate.
  - unfold start. destruct (isRunning s); simpl; lra.
  - simpl. lra.
  - destruct (isRunning s) eqn:Er; [|lra].
    destruct (lastTick s) as [l|] eqn:El.
    + cbn [clock_ok] in Hc. rewrite El, Er in Hc. simpl in Hc.
      rewrite andb_true_r in Hc. apply Qle_bool_iff in Hc.
      pose proof (loop_monotone_clock total t l s El Hc He). lra.
    + rewrite (loop_first_delta total t s El). apply Q.min_glb; lra.
Qed.

Lemma clock_ok_cons (total : Q) (s : state) (ev : event) (evs : list event) :
  clock_ok total s (ev :: evs) = true ->
  clock_ok total s [ev] = true /\ clock_ok total (step total s ev) evs = true.
Proof.
  cbn [clock_ok]. rewrite !andb_true_iff. tauto.
Qed.

(** Whatever the controls pressed and the frames delivered, as long as
    the frame timestamps do not decrease: the elapsed time stays
    between 0 and the total, and without a reset it never goes down. *)
Theorem run_elapsed_in_range (total : Q) (evs : list event) (s : state) :
  0 <= elapsedSec s <= total ->
  clock_ok total s evs = true ->
  0 <= elapsedSec (run total evs s) <= total /\
  (existsb is_reset evs = false ->
   elapsedSec s <= elapsedSec (run total evs s)).
Proof.
  revert s. induction evs as [|ev evs IH]; intros s He Hc.
  - simpl. split; [exact He | intros _; lra].
  - apply clock_ok_cons in Hc. destruct Hc as [Hc1 Hc2].
    pose proof (step_range total s ev He Hc1) as Hstep.
    destruct (IH _ Hstep Hc2) as [Hr Hm].
    split; [exact Hr|].
    cbn [existsb]. intro Hn. apply orb_false_iff in Hn.
    destruct Hn as [Hn1 Hn2].
    apply Qle_trans with (elapsedSec (step total s ev)).
    + apply step_no_rewind; assumption.
    + apply Hm. exact Hn2.
Qed.

Lemma run_elapsed_in_range_witness :
  0 <= elapsedSec
         (run 2700 [Start; Frame 1000; Frame 4000; Pause; Start; Frame 9000]
              init) <= 2700.
Proof.
  apply (run_elapsed_in_range 2700
           [Start; Frame 1000; Frame 4000; Pause; Start; Frame 9000] init).
  - split; discriminate.
  - reflexivity.
Defined.

(** Time spent paused is not counted: after a pause and a restart, the
    first frame adds nothing to the elapsed time, whatever its
    timestamp and whatever the timestamp of the last frame before the
    pause. *)
Theorem paused_time_not_counted (total t : Q) (s : state) :
  elapsedSec s <= total ->
  elapsedSec (run total [Pause; Start; Frame t] s) == elapsedSec s.
Proof.
  intro He. cbn. unfold tick.
  rewrite Q.min_l; [field|].
  assert ((t - t) / 1000 == 0) as -> by field. lra.
Qed.

Lemma paused_time_not_counted_witness :
  elapsedSec (run 2700 [Pause; Start; Frame 99000]
                {| isRunning := true; elapsedSec := 12; lastTick := Some 5000 |})
  == 12.
Proof.
  apply (paused_time_not_counted 2700 99000
           {| isRunning := true; elapsedSec := 12; lastTick := Some 5000 |}).
  discriminate.
Defined.

(** No automatic stop: once the elapsed time has reached the total, a
    further frame keeps it there and leaves the timer running, at 100
    percent. *)
Theorem completed_stays_running (total t l : Q) (s : state) :
  0 < total ->
  isRunning s = true ->
  lastTick s = Some l -> l <= t ->
  elapsedSec s == total ->
  elapsedSec (step total s (Frame t)) == total /\
  isRunning (step total s (Frame t)) = true /\
  percent (elapsedSec (step total s (Frame t))) total = Js.Fin 100.
Proof.
  intros Ht Hr Hl Hlt He. cbn [step]. rewrite Hr.
  assert (elapsedSec (loop total t s) == total) as Hend.
  { pose proof (loop_monotone_clock total t l s Hl Hlt) as H.
    assert (0 <= elapsedSec s <= total) as Hrange by lra.
    specialize (H Hrange). lra. }
  split; [exact Hend|]. split; [exact Hr|].
  rewrite percent_finite by lra.
  rewrite (round_Q_comp _ (inject_Z 100)).
  - rewrite round_Q_int. reflexivity.
  - rewrite Hend. change (inject_Z 100) with 100. field. lra.
Qed.

Lemma completed_stays_running_witness :
  percent
    (elapsedSec
       (step 2700
          {| isRunning := true; elapsedSec := 2700; lastTick := Some 10 |}
          (Frame 20))) 2700 = Js.Fin 100.
Proof.
  apply (completed_stays_running 2700 20 10
           {| isRunning := true; elapsedSec := 2700; lastTick := Some 10 |});
    reflexivity || discriminate.
Defined.

End EngineFacts.

(* ------------------------------------------------------------------ *)
(** ** The progress bar *)

Section ProgressFacts.

Import Timer.
Local Open Scope Q_scope.

(** An integer [k] is the floor of [x] when [k <= x < k + 1]. *)
Lemma Qfloor_unique (x : Q) (k : Z) :
  inject_Z k <= x < inject_Z (k + 1) -> Qfloor x = k.
Proof.
  intros [Hlo Hhi].
  pose proof (Qfloor_resp_le _ _ Hlo) as H1. rewrite Qfloor_Z in H1.
  pose proof (Qfloor_le x) as H2.
  assert (inject_Z (Qfloor x) < inject_Z (k + 1)) as H3 by lra.
  rewrite <- Zlt_Qlt in H3. lia.
Qed.

Lemma round_Q_is (x : Q) (k : Z) :
  Js.round_Q x = k <-> inject_Z k - (1 # 2) <= x < inject_Z k + (1 # 2).
Proof.
  split.
  - intros <-. pose proof (round_Q_nearest x). lra.
  - intros [Hlo Hhi]. unfold Js.round_Q. apply Qfloor_unique.
    rewrite inject_Z_plus. change (inject_Z 1) with 1. lra.
Qed.

End ProgressFacts.

(* ------------------------------------------------------------------ *)
(** ** The cumulative layout and the highlighted block *)

Section LayoutExtras.

Import Timer Layout.
Local Open Scope Q_scope.

(** [cumulative] has one entry per block, in order, carrying the
    block's id, name and intensity and spanning sixty times its
    minutes; the first entry starts at 0, each further one starts where
    the one before ends, and the last one ends at [totalSec]. *)
Theorem cumulative_layout (bs : list Block) :
  List.length (cumulative bs) = List.length bs /\
  (forall i b, nth_error bs i = Some b ->
     exists c, nth_error (cumulative bs) i = Some c /\
       c_id c = id b /\ c_name c = name b /\ c_intensity c = intensity b /\
       (c_end c - c_start c = 60 * minutes b)%Z) /\
  (forall c, nth_error (cumulative bs) 0 = Some c -> c_start c = 0%Z) /\
  (forall i c c', nth_error (cumulative bs) i = Some c ->
     nth_error (cumulative bs) (S i) = Some c' -> c_start c' = c_end c) /\
  (forall c, bs <> [] ->
     nth_error (cumulative bs) (List.length bs - 1) = Some c ->
     c_end c = totalSec bs).
Proof.
  split; [apply length_cumulative|].
  split; [|split; [|split]].
  - intros i b Hb. exists (entry_at bs i b).
    rewrite nth_cumulative, Hb. split; [reflexivity|].
    repeat split. cbn [entry_at c_end c_start]. unfold seg_start.
    rewrite (sum_firstn_S bs i b Hb). lia.
  - intros c Hc. destruct (cumulative_entry bs 0 c Hc) as (b & _ & ->).
    reflexivity.
  - intros i c c' Hc Hc'.
    destruct (cumulative_entry bs i c Hc) as (b & _ & ->).
    destruct (cumulative_entry bs (S i) c' Hc') as (b' & _ & ->).
    reflexivity.
  - intros c Hne Hc.
    destruct (cumulative_entry bs _ c Hc) as (b & _ & ->). simpl.
    replace (S (List.length bs - 1)) with (List.length bs).
    + apply seg_start_all.
    + destruct bs; [congruence | simpl; lia].
Qed.

Lemma cumulative_layout_witness :
  exists c, nth_error (cumulative example_plan) 1 = Some c /\
    c_id c = "b"%string /\ c_name c = "Main Set"%string /\
    c_intensity c = moderate /\ (c_end c - c_start c = 60 * 30)%Z.
Proof.
  destruct (cumulative_layout example_plan) as (_ & H & _).
  exact (H 1%nat _ eq_refl).
Defined.

(** A plan with at least one block always has a current block,
    whatever the elapsed time, and it is an entry of [cumulative]. *)
Theorem current_defined (bs : list Block) (e : Q) :
  bs <> [] ->
  exists c, current bs e = Some c /\ In c (cumulative bs).
Proof.
  intro Hne.
  destruct (find (contains e) (cumulative bs)) as [c|] eqn:Ef.
  - exists c. split.
    + unfold current, current_of. rewrite Ef. reflexivity.
    + apply find_some in Ef. tauto.
  - rewrite (current_fallback bs e Ef).
    destruct (nth_error (cumulative bs) (List.length bs - 1)) as [c|] eqn:Ec.
    + exists c. split; [reflexivity|]. apply (nth_error_In _ _ Ec).
    + apply nth_error_None in Ec. rewrite length_cumulative in Ec.
      destruct bs; [congruence | simpl in Ec; lia].
Qed.

Lemma current_defined_witness :
  exists c, current example_plan (-5) = Some c /\
            In c (cumulative example_plan).
Proof.
  apply (current_defined example_plan (-5)). discriminate.
Defined.

Lemma sum_firstn_mono (bs : list Block) (i j : nat) :
  nonneg bs -> (i <= j)%nat ->
  (sum_minutes (firstn i bs) <= sum_minutes (firstn j bs))%Z.
Proof.
  intro H. revert i j. induction H as [|b bs Hb Hbs IH]; intros i j Hij.
  - rewrite !firstn_nil. lia.
  - destruct i as [|i].
    + simpl. destruct j as [|j]; simpl; [lia|].
      specialize (IH 0%nat j). simpl in IH. lia.
    + destruct j as [|j]; [lia|]. rewrite !firstn_cons. simpl.
      specialize (IH i j). lia.
Qed.

Lemma seg_start_mono (bs : list Block) (i j : nat) :
  nonneg bs -> (i <= j)%nat -> (seg_start bs i <= seg_start bs j)%Z.
Proof.
  intros H Hij. unfold seg_start.
  pose proof (sum_firstn_mono bs i j H Hij). lia.
Qed.

(** How [current] came to its answer: the entry at a position whose
    interval holds [e], or the last entry with [e] in no interval. *)
Lemma current_cases (bs : list Block) (e : Q) (c : cum) :
  current bs e = Some c ->
  exists i b, nth_error bs i = Some b /\ c = entry_at bs i b /\
    (in_segment bs i e \/
     (i = (List.length bs - 1)%nat /\
      find (contains e) (cumulative bs) = None)).
Proof.
  intro Hc.
  destruct (find (contains e) (cumulative bs)) as [c'|] eqn:Ef.
  - unfold current, current_of in Hc. rewrite Ef in Hc. injection Hc as ->.
    destruct (find_first _ _ _ Ef) as (i & Hi & Hin & _).
    destruct (cumulative_entry bs i c Hi) as (b & Hb & ->).
    exists i, b. split; [exact Hb|]. split; [reflexivity|]. left.
    apply (contains_entry_at bs i b e Hb). exact Hin.
  - rewrite (current_fallback bs e Ef) in Hc.
    destruct (cumulative_entry bs _ c Hc) as (b & Hb & ->).
    exists (List.length bs - 1)%nat, b. split; [exact Hb|].
    split; [reflexivity|]. right. split; reflexivity || exact Ef.
Qed.

(** With non-negative durations the current block never moves back:
    as the elapsed time grows from 0 on, the start of the current block
    does not decrease. *)
Theorem current_never_moves_back (bs : list Block) (e1 e2 : Q)
  (c1 c2 : cum) :
  nonneg bs ->
  0 <= e1 <= e2 ->
  current bs e1 = Some c1 ->
  current bs e2 = Some c2 ->
  (c_start c1 <= c_start c2)%Z.
Proof.
  intros Hnn [H0 H12] Hc1 Hc2.
  destruct (current_cases bs e1 c1 Hc1) as (i1 & b1 & Hb1 & -> & Hcase1).
  destruct (current_cases bs e2 c2 Hc2) as (i2 & b2 & Hb2 & -> & Hcase2).
  simpl.
  assert (i1 < List.length bs)%nat as Hi1 by (apply nth_error_Some; congruence).
  assert (i2 < List.length bs)%nat as Hi2 by (apply nth_error_Some; congruence).
  destruct Hcase2 as [[_ [_ Hhi2]] | [-> _]];
    [|apply seg_start_mono; [exact Hnn | lia]].
  destruct (Nat.le_gt_cases i1 i2) as [Hle | Hgt];
    [apply seg_start_mono; assumption|].
  exfalso.
  assert (inject_Z (seg_start bs (S i2)) <= e1) as Hlow.
  { destruct Hcase1 as [[_ [Hlo1 _]] | [_ Ef]].
    - pose proof (seg_start_mono bs (S i2) i1 Hnn Hgt) as Hm.
      rewrite Zle_Qle in Hm. lra.
    - destruct (Qlt_le_dec e1 (inject_Z (seg_start bs (List.length bs))))
        as [Hlt | Hge].
      + destruct (segments_cover bs e1 _ H0 Hlt) as (k & Hk & Hin).
        exfalso. apply (find_in_segment bs e1 k); [split; assumption | exact Ef].
      + pose proof (seg_start_mono bs (S i2) (List.length bs) Hnn Hi2) as Hm.
        rewrite Zle_Qle in Hm. lra. }
  lra.
Qed.

Lemma current_never_moves_back_witness :
  (c_start {| c_id := "a"; c_start := 0; c_end := 600; c_name := "Warmup";
              c_intensity := low |}
   <= c_start {| c_id := "b"; c_start := 600; c_end := 2400;
                 c_name := "Main Set"; c_intensity := moderate |})%Z.
Proof.
  apply (current_never_moves_back example_plan 30 1500).
  - repeat constructor; discriminate.
  - split; discriminate.
  - reflexivity.
  - reflexivity.
Defined.

End LayoutExtras.

Section SessionStart.

Import Timer Layout.
Local Open Scope Q_scope.

Lemma current_first_segment (bs : list Block) (e : Q) :
  0 <= e < inject_Z (totalSec bs) ->
  exists i b, nth_error bs i = Some b /\
    current bs e = Some (entry_at bs i b) /\ in_segment bs i e.
Proof.
  intros [H0 Hlt]. rewrite <- seg_start_all in Hlt.
  destruct (segments_cover bs e _ H0 Hlt) as (k & Hk & Hin).
  destruct (find (contains e) (cumulative bs)) as [c|] eqn:Ef.
  - assert (current bs e = Some c) as Hc.
    { unfold current, current_of. rewrite Ef. reflexivity. }
    destruct (current_cases bs e c Hc) as (i & b & Hb & -> & [Hseg | [_ Hn]]).
    + exists i, b. repeat split; try assumption; apply Hseg.
    + congruence.
  - exfalso. apply (find_in_segment bs e k); [split; assumption | exact Ef].
Qed.

(** Before any time has elapsed, on a plan of non-negative durations
    that is not of zero length, the current block is the first block
    that lasts more than zero minutes; blocks of zero minutes ahead of
    it are passed over. *)
Theorem current_at_start (bs : list Block) :
  nonneg bs ->
  (0 < totalSec bs)%Z ->
  exists i b c, nth_error bs i = Some b /\
    current bs 0 = Some c /\
    c_id c = id b /\ c_name c = name b /\ c_start c = 0%Z /\
    (0 < minutes b)%Z /\
    forall j bj, (j < i)%nat -> nth_error bs j = Some bj -> minutes bj = 0%Z.
Proof.
  intros Hnn Htot.
  assert (0 <= 0 < inject_Z (totalSec bs)) as Hrange.
  { split; [lra|]. change 0 with (inject_Z 0). rewrite <- Zlt_Qlt. exact Htot. }
  destruct (current_first_segment bs 0 Hrange) as (i & b & Hb & Hc & Hseg).
  destruct Hseg as [Hi [Hlo Hhi]].
  change 0 with (inject_Z 0) in Hlo, Hhi.
  rewrite <- Zle_Qle in Hlo. rewrite <- Zlt_Qlt in Hhi.
  pose proof (seg_start_mono bs 0 i Hnn (Nat.le_0_l i)) as Hge.
  rewrite seg_start_0 in Hge.
  assert (seg_start bs i = 0%Z) as Hzero by lia.
  exists i, b, (entry_at bs i b).
  split; [exact Hb|]. split; [exact Hc|].
  split; [reflexivity|]. split; [reflexivity|]. split; [exact Hzero|].
  split.
  - unfold seg_start in Hhi, Hzero. rewrite (sum_firstn_S bs i b Hb) in Hhi. lia.
  - intros j bj Hj Hbj.
    pose proof (seg_start_mono bs (S j) i Hnn Hj) as H1.
    pose proof (seg_start_mono bs 0 j Hnn (Nat.le_0_l j)) as H2.
    rewrite seg_start_0 in H2.
    unfold seg_start in H1, H2, Hzero.
    rewrite (sum_firstn_S bs j bj Hbj) in H1.
    assert (0 <= minutes bj)%Z as Hpos.
    { unfold nonneg in Hnn. rewrite Forall_forall in Hnn.
      apply Hnn. apply (nth_error_In _ _ Hbj). }
    lia.
Qed.

Lemma current_at_start_witness :
  exists i b c, nth_error (rev zero_tail_plan) i = Some b /\
    current (rev zero_tail_plan) 0 = Some c /\
    c_id c = id b /\ c_name c = name b /\ c_start c = 0%Z /\
    (0 < minutes b)%Z /\
    forall j bj, (j < i)%nat -> nth_error (rev zero_tail_plan) j = Some bj ->
                 minutes bj = 0%Z.
Proof.
  apply (current_at_start (rev zero_tail_plan)).
  - repeat constructor; discriminate.
  - reflexivity.
Defined.

End SessionStart.

(* ------------------------------------------------------------------ *)
(** ** The clock face *)

Section DisplayFacts.

Import Display.
Local Open Scope Q_scope.

Lemma Qfloor_div_60 (s : Q) :
  Qfloor (s / 60) = (Qfloor s / 60)%Z.
Proof.
  pose proof (Qfloor_le s) as Hlo. pose proof (Qlt_floor s) as Hhi.
  set (n := Qfloor s) in *.
  pose proof (Z.div_mod n 60 ltac:(lia)) as Hdm.
  pose proof (Z.mod_pos_bound n 60 ltac:(lia)) as Hm.
  apply Qfloor_unique.
  assert (inject_Z (60 * (n / 60)) <= inject_Z n) as H1.
  { rewrite <- Zle_Qle. lia. }
  assert (inject_Z (n + 1) <= inject_Z (60 * (n / 60 + 1))) as H2.
  { rewrite <- Zle_Qle. lia. }
  rewrite inject_Z_mult in H1, H2. rewrite inject_Z_plus in H2, Hhi |- *.
  change (inject_Z 60) with 60 in *. change (inject_Z 1) with 1 in *.
  rewrite inject_Z_plus in H2. change (inject_Z 1) with 1 in H2.
  split.
  - apply Qle_shift_div_l; lra.
  - apply Qlt_shift_div_r; lra.
Qed.

Lemma rem_60_floor (s : Q) :
  0 <= s -> Qfloor (rem s 60) = (Qfloor s mod 60)%Z.
Proof.
  intro H0. unfold rem, trunc.
  assert (0 <= s / 60) as Hq by (apply Qle_shift_div_l; lra).
  apply Qle_bool_iff in Hq. rewrite Hq. rewrite Qfloor_div_60.
  pose proof (Qfloor_le s) as Hlo. pose proof (Qlt_floor s) as Hhi.
  set (n := Qfloor s) in *.
  pose proof (Z.div_mod n 60 ltac:(lia)) as Hdm.
  apply Qfloor_unique.
  assert (inject_Z (n mod 60) == inject_Z n - 60 * inject_Z (n / 60)) as E.
  { replace (n mod 60)%Z with (n - 60 * (n / 60))%Z by lia.
    unfold Zminus. rewrite inject_Z_plus, inject_Z_opp, inject_Z_mult.
    change (inject_Z 60) with 60. ring. }
  rewrite inject_Z_plus, E. rewrite inject_Z_plus in Hhi.
  change (inject_Z 1) with 1 in *. lra.
Qed.

Lemma string_length_append (a b : string) :
  String.length (a ++ b)%string = (String.length a + String.length b)%nat.
Proof.
  induction a as [|ch a IH]; simpl; [reflexivity | rewrite IH; reflexivity].
Qed.

Lemma two_digits (z : Z) :
  (0 <= z < 100)%Z ->
  String.length (padStart0 2 (Instructor.string_of_Z z)) = 2%nat.
Proof.
  intro H.
  assert (exists n, (n < 100)%nat /\ z = Z.of_nat n) as (n & Hn & ->).
  { exists (Z.to_nat z). split; lia. }
  clear H.
  do 100 (destruct n as [|n]; [reflexivity|]). lia.
Qed.

(** The clock face shows the whole seconds elapsed, split into minutes
    and seconds of two digits each: for 0 <= s below 100 minutes the
    text has five characters, minutes then a colon then seconds. *)
Theorem fmt_clock (s : Q) :
  0 <= s ->
  fmt s =
  (padStart0 2 (Instructor.string_of_Z (Qfloor s / 60)) ++ ":" ++
   padStart0 2 (Instructor.string_of_Z (Qfloor s mod 60)))%string /\
  (s < 6000 -> String.length (fmt s) = 5%nat).
Proof.
  intro H0.
  assert (fmt s =
    (padStart0 2 (Instructor.string_of_Z (Qfloor s / 60)) ++ ":" ++
     padStart0 2 (Instructor.string_of_Z (Qfloor s mod 60)))%string) as E.
  { unfold fmt. rewrite Qfloor_div_60, (rem_60_floor s H0). reflexivity. }
  split; [exact E|].
  intro Hlt. rewrite E.
  pose proof (Qfloor_le s) as Hlo.
  assert (0 <= Qfloor s)%Z as Hn0.
  { rewrite <- (Qfloor_Z 0). apply Qfloor_resp_le. exact H0. }
  assert (Qfloor s < 6000)%Z as Hn1.
  { rewrite Zlt_Qlt. change (inject_Z 6000) with 6000. lra. }
  rewrite !string_length_append.
  rewrite two_digits by (split; [apply Z.div_pos; lia |
                                 apply Z.div_lt_upper_bound; lia]).
  rewrite two_digits.
  - reflexivity.
  - pose proof (Z.mod_pos_bound (Qfloor s) 60 ltac:(lia)). lia.
Qed.

Lemma fmt_clock_witness :
  fmt (3001 # 2) = "25:00"%string /\ String.length (fmt (3001 # 2)) = 5%nat.
Proof.
  destruct (fmt_clock (3001 # 2)) as [E L]; [discriminate|].
  split; [rewrite E; reflexivity | apply L; reflexivity].
Defined.

End DisplayFacts.

(* ------------------------------------------------------------------ *)
(** ** The store over a history of saves *)

Section StoreHistory.

Import Store.

(** Saving sessions one after the other into an empty store leaves the
    last 500 of them, the newest first. *)
Theorem store_history (ls : list SessionLog) :
  saved ls = firstn 500 (rev ls) /\
  (List.length (saved ls) = Nat.min 500 (List.length ls)) /\
  (forall d, ls <> [] -> hd_error (saved ls) = Some (last ls d)).
Proof.
  split; [apply saved_rev|]. split.
  - rewrite saved_rev, length_firstn, length_rev. reflexivity.
  - intros d Hne. rewrite saved_rev.
    destruct (exists_last Hne) as (front & x & ->).
    rewrite rev_app_distr, last_last. cbn [rev app].
    change 500%nat with (S 499). rewrite firstn_cons. reflexivity.
Qed.

Lemma store_history_witness :
  hd_error (saved (map numbered_session (seq 0 3))) =
  Some (numbered_session 2).
Proof.
  destruct (store_history (map numbered_session (seq 0 3))) as (_ & _ & H).
  rewrite (H (numbered_session 0)); [reflexivity | discriminate].
Defined.

End StoreHistory.

(* ------------------------------------------------------------------ *)
(** ** Selecting a plan and saving a session *)

Section StudentFacts.

Import Student.

(** The selected plan is a stored plan: the first one with the chosen
    id, else the first plan of the list; there is none exactly when no
    plan is stored. *)
Theorem selected_plan (st : state) :
  (selected st = None <-> plans st = []) /\
  (forall p, selected st = Some p ->
     In p (plans st) /\
     (plan_id p = selectedId st \/
      (hd_error (plans st) = Some p /\
       forall q, In q (plans st) -> plan_id q <> selectedId st))).
Proof.
  unfold selected.
  destruct (find (fun p => String.eqb (plan_id p) (selectedId st)) (plans st))
    as [p0|] eqn:Ef.
  - apply find_some in Ef. destruct Ef as [Hin Heq].
    apply String.eqb_eq in Heq. split.
    + split; [discriminate|]. intro H. rewrite H in Hin. destruct Hin.
    + intros p [= <-]. split; [exact Hin | left; exact Heq].
  - split.
    + destruct (plans st); simpl; split; congruence.
    + intros p Hp. split; [apply (nth_error_In _ _ Hp)|]. right. split.
      * destruct (plans st); simpl in *; congruence.
      * intros q Hq Hid. pose proof (find_none _ _ Ef q Hq) as Hn.
        simpl in Hn. apply String.eqb_neq in Hn. contradiction.
Qed.

Lemma selected_plan_witness :
  In demo_plan (plans (demo_student 0)) /\
  (plan_id demo_plan = selectedId (demo_student 0) \/
   (hd_error (plans (demo_student 0)) = Some demo_plan /\
    forall q, In q (plans (demo_student 0)) ->
              plan_id q <> selectedId (demo_student 0))).
Proof.
  destruct (selected_plan (demo_student 0)) as [_ H].
  apply H. reflexivity.
Defined.

(** Saving a session raises exactly when no plan is stored. *)
Theorem finish_raises_iff (fresh now : string) (st : state)
  (logs : list SessionLog) :
  finish fresh now st logs = TypeError <-> plans st = [].
Proof.
  split; [|apply finish_without_plan].
  unfold finish. destruct (selected st) as [sel|] eqn:Es; [discriminate|].
  intros _. unfold selected in Es.
  destruct (find _ (plans st)); [discriminate|].
  destruct (plans st); [reflexivity | discriminate].
Qed.

Lemma finish_raises_iff_witness :
  finish "i" "n"
    {| plans := []; selectedId := ""; timer := Timer.init; studentName := "";
       rpe_input := 5; notes_input := ""; metricInputs := [] |} []
  = TypeError.
Proof.
  apply (finish_raises_iff "i" "n"
           {| plans := []; selectedId := ""; timer := Timer.init;
              studentName := ""; rpe_input := 5; notes_input := "";
              metricInputs := [] |} []).
  reflexivity.
Defined.

(** Saving does not clear the form: pressing Save twice in a row stores
    two sessions, the second one with the same metric values, rating
    and notes, and a duration of 0. *)
Theorem save_twice (f1 n1 f2 n2 : string) (st : state) (sel : WorkoutPlan)
  (logs : list SessionLog) :
  selected st = Some sel ->
  exists st1 st2 l1 l2,
    finish f1 n1 st logs = Done (Store.addLog l1 logs, st1) /\
    finish f2 n2 st1 (Store.addLog l1 logs) =
      Done (l2 :: l1 :: firstn 498 logs, st2) /\
    metrics l2 = metrics l1 /\ rpe l2 = rpe l1 /\
    log_notes l2 = log_notes l1 /\ planId l2 = planId l1 /\
    duration l2 = Js.Fin 0.
Proof.
  intro Hs.
  set (st1 := {| plans := plans st; selectedId := selectedId st;
                 timer := Timer.reset (timer st);
                 studentName := studentName st; rpe_input := rpe_input st;
                 notes_input := notes_input st;
                 metricInputs := metricInputs st |}).
  assert (selected st1 = Some sel) as Hs1 by exact Hs.
  exists st1, {| plans := plans st1; selectedId := selectedId st1;
                 timer := Timer.reset (timer st1);
                 studentName := studentName st1; rpe_input := rpe_input st1;
                 notes_input := notes_input st1;
                 metricInputs := metricInputs st1 |},
         (finish_log f1 n1 st sel), (finish_log f2 n2 st1 sel).
  split; [unfold finish; rewrite Hs; reflexivity|].
  split.
  - unfold finish. rewrite Hs1. rewrite !addLog_cons.
    change 499%nat with (S 498). rewrite firstn_cons.
    rewrite firstn_firstn. reflexivity.
  - repeat split.
Qed.

Lemma save_twice_witness :
  exists st1 st2 l1 l2,
    finish "i" "n" (demo_student 1200) [] = Done (Store.addLog l1 [], st1) /\
    finish "j" "m" st1 (Store.addLog l1 []) =
      Done (l2 :: l1 :: firstn 498 [], st2) /\
    metrics l2 = metrics l1 /\ rpe l2 = rpe l1 /\
    log_notes l2 = log_notes l1 /\ planId l2 = planId l1 /\
    duration l2 = Js.Fin 0.
Proof.
  apply (save_twice "i" "n" "j" "m" (demo_student 1200) demo_plan []).
  reflexivity.
Defined.

End StudentFacts.

(* ------------------------------------------------------------------ *)
(** ** What the improvement figure depends on *)

Section ImprovementExtras.

Import Student.
Local Open Scope Q_scope.

Lemma series_of_app (l1 l2 : list SessionLog) (sel : option WorkoutPlan)
  (bid : string) :
  series_of (l1 ++ l2) sel bid = series_of l1 sel bid ++ series_of l2 sel bid.
Proof.
  unfold series_of, myLogs. rewrite filter_app, map_app, numbers_app.
  reflexivity.
Qed.

Lemma metric_of_none (bid : string) (l : SessionLog) :
  Forall (fun m => blockId m <> bid) (metrics l) -> metric_of bid l = None.
Proof.
  intro H. unfold metric_of. rewrite find_all_false; [reflexivity|].
  intros m Hm. rewrite Forall_forall in H. apply String.eqb_neq.
  apply H. exact Hm.
Qed.

Lemma series_of_one (l : SessionLog) (p : WorkoutPlan) (bid : string) :
  series_of [l] (Some p) bid =
  if String.eqb (planId l) (plan_id p)
  then match metric_of bid l with Some v => [v] | None => [] end
  else [].
Proof.
  unfold series_of, myLogs. simpl.
  destruct (String.eqb (planId l) (plan_id p)); [|reflexivity].
  simpl. destruct (metric_of bid l); reflexivity.
Qed.

(** A session of another plan, or one without an entry for the block,
    has no influence on the figure, wherever it sits in the store. *)
Theorem improvement_ignores_unrelated (before after : list SessionLog)
  (l : SessionLog) (p : WorkoutPlan) (bid : string) :
  planId l <> plan_id p \/ Forall (fun m => blockId m <> bid) (metrics l) ->
  computeImprovement (before ++ l :: after) (Some p) bid =
  computeImprovement (before ++ after) (Some p) bid.
Proof.
  intro H. unfold computeImprovement. f_equal.
  change (l :: after) with ([l] ++ after).
  rewrite !series_of_app, series_of_one.
  destruct H as [H | H].
  - apply String.eqb_neq in H. rewrite H. reflexivity.
  - rewrite (metric_of_none bid l H).
    destruct (String.eqb (planId l) (plan_id p)); reflexivity.
Qed.

Lemma improvement_ignores_unrelated_witness :
  computeImprovement
    ([session "s3" "p" "b" 15] ++ session "s2" "other" "b" 99 ::
       [session "s1" "p" "b" 10]) (Some demo_plan) "b" =
  computeImprovement
    ([session "s3" "p" "b" 15] ++ [session "s1" "p" "b" 10])
    (Some demo_plan) "b".
Proof.
  apply improvement_ignores_unrelated. left. discriminate.
Defined.

(** On logs that are the outcome of an append (what the dashboard has
    before it once it has read the store again): when the appended
    session is of the selected plan and an earlier qualifying session
    is kept, the baseline is the value the appended session recorded
    for the block and latest is the value of the oldest qualifying
    session kept. *)
Theorem newest_session_is_baseline (log : SessionLog)
  (logs : list SessionLog) (p : WorkoutPlan) (bid : string) (v : Js.number) :
  planId log = plan_id p ->
  metric_of bid log = Some v ->
  series_of (firstn 499 logs) (Some p) bid <> [] ->
  exists mid l,
    series_of (firstn 499 logs) (Some p) bid = mid ++ [l] /\
    baseline (computeImprovement (Store.addLog log logs) (Some p) bid)
      = Some v /\
    latest (computeImprovement (Store.addLog log logs) (Some p) bid)
      = Some l.
Proof.
  intros Hp Hv Hne.
  destruct (exists_last Hne) as (mid & l & Hs).
  exists mid, l. split; [exact Hs|].
  unfold computeImprovement. rewrite addLog_cons.
  change (log :: firstn 499 logs) with ([log] ++ firstn 499 logs).
  rewrite series_of_app, series_of_one, Hp, String.eqb_refl, Hv, Hs.
  cbn [app]. rewrite improvement_of_ends.
  destruct (negb (Js.truthy v) || Js.is_zero v); split; reflexivity.
Qed.

Lemma newest_session_is_baseline_witness :
  exists mid l,
    series_of (firstn 499 [session "s1" "p" "b" 10]) (Some demo_plan) "b"
      = mid ++ [l] /\
    baseline (computeImprovement
                (Store.addLog (session "s2" "p" "b" 15)
                              [session "s1" "p" "b" 10])
                (Some demo_plan) "b") = Some (Js.Fin 15) /\
    latest (computeImprovement
                (Store.addLog (session "s2" "p" "b" 15)
                              [session "s1" "p" "b" 10])
                (Some demo_plan) "b") = Some l.
Proof.
  apply newest_session_is_baseline;
    [reflexivity | reflexivity | discriminate].
Defined.

(** With no plan selected, and for a block no session of the plan has
    an entry for, the result is empty. *)
Theorem improvement_empty (logs : list SessionLog) (bid : string) :
  computeImprovement logs None bid = no_improvement /\
  (forall p,
     (forall l, In l logs -> planId l = plan_id p ->
                Forall (fun m => blockId m <> bid) (metrics l)) ->
     computeImprovement logs (Some p) bid = no_improvement).
Proof.
  split.
  - unfold computeImprovement, series_of, myLogs.
    assert (filter (fun _ : SessionLog => false) logs = []) as ->.
    { induction logs; simpl; auto. }
    reflexivity.
  - intros p H. unfold computeImprovement.
    assert (series_of logs (Some p) bid = []) as ->; [|reflexivity].
    induction logs as [|l logs IH]; [reflexivity|].
    change (l :: logs) with ([l] ++ logs).
    rewrite series_of_app, series_of_one, IH.
    + destruct (String.eqb (planId l) (plan_id p)) eqn:E; [|reflexivity].
      apply String.eqb_eq in E.
      rewrite (metric_of_none bid l (H l (or_introl eq_refl) E)).
      reflexivity.
    + intros l' Hl'. apply H. right. exact Hl'.
Qed.

Lemma improvement_empty_witness :
  computeImprovement [session "s1" "p" "b" 10; session "s2" "p" "b" 15]
    (Some demo_plan) "c" = no_improvement.
Proof.
  destruct (improvement_empty
              [session "s1" "p" "b" 10; session "s2" "p" "b" 15] "c")
    as [_ H].
  apply H. intros l [<- | [<- | []]] _; repeat constructor; discriminate.
Defined.

End ImprovementExtras.

(* ------------------------------------------------------------------ *)
(** ** The chart of sessions *)

Section ChartFacts.

Import Chart.

Variable toLocaleDateString : string -> string.

Lemma filter_twice {A : Type} (f : A -> bool) (l : list A) :
  filter f (filter f l) = filter f l.
Proof.
  induction l as [|a l IH]; simpl; [reflexivity|].
  destruct (f a) eqn:E; simpl; [rewrite E, IH|]; auto.
Qed.

Lemma slice_last_rev {A : Type} (n : nat) (l : list A) :
  slice_last n (rev l) = rev (firstn n l).
Proof.
  unfold slice_last. rewrite skipn_rev, length_rev. f_equal.
  destruct (Nat.le_gt_cases (List.length l) n) as [H | H].
  - replace (List.length l - n)%nat with 0%nat by lia.
    rewrite Nat.sub_0_r, firstn_all. symmetry. apply firstn_all2. exact H.
  - f_equal. lia.
Qed.

(** The chart has at most ten points, taken from the end of the plan's
    logs as stored.  The store being newest first, after a history of
    saves the chart holds the ten oldest sessions of the plan, the
    newest of these first. *)
Theorem chart_shows_oldest (ls : list SessionLog) (sel : option WorkoutPlan) :
  (forall logs,
     (List.length (chartData toLocaleDateString logs sel) <= 10)%nat) /\
  ((List.length ls <= 500)%nat ->
   chartData toLocaleDateString (Store.saved ls) sel =
   map (point_of toLocaleDateString)
       (rev (firstn 10 (Student.myLogs ls sel)))).
Proof.
  split.
  - intro logs. unfold chartData, slice_last.
    rewrite length_map, length_skipn. lia.
  - intro H. unfold chartData. unfold Student.myLogs at 1.
    rewrite filter_twice.
    change (filter _ (Store.saved ls)) with (Student.myLogs (Store.saved ls) sel).
    unfold Student.myLogs. rewrite saved_rev.
    rewrite firstn_all2 by (rewrite length_rev; exact H).
    rewrite filter_rev, slice_last_rev. reflexivity.
Qed.

End ChartFacts.

Lemma chart_shows_oldest_witness :
  map Chart.Minutes
      (Chart.chartData (fun d => d)
         (Store.saved (map numbered_session (seq 0 12))) (Some demo_plan)) =
  map (fun n => Js.Fin (inject_Z (Z.of_nat n))) (rev (seq 0 10)).
Proof.
  destruct (chart_shows_oldest (fun d => d)
              (map numbered_session (seq 0 12)) (Some demo_plan)) as [_ H].
  rewrite H; [reflexivity | simpl; lia].
Defined.

(* ------------------------------------------------------------------ *)
(** ** Storing and removing plans *)

Section PlanListFacts.

Import Instructor.

Lemma save_accepted (st : state) (ed : WorkoutPlan) :
  editing st = Some ed ->
  Layout.sum_minutes (blocks ed) = 45 ->
  savePlan st =
  ({| plans :=
        if existsb (fun p => String.eqb (plan_id p) (plan_id ed)) (plans st)
        then map (fun p => if String.eqb (plan_id p) (plan_id ed)
                           then ed else p) (plans st)
        else ed :: plans st;
      editing := None |}, None).
Proof.
  intros He Hsum. unfold savePlan. rewrite He, sum_fold, Z.add_0_l, Hsum.
  reflexivity.
Qed.

Lemma replace_ids (ed : WorkoutPlan) (ps : list WorkoutPlan) :
  map plan_id (map (fun p => if String.eqb (plan_id p) (plan_id ed)
                             then ed else p) ps) = map plan_id ps.
Proof.
  rewrite map_map. apply map_ext. intro p.
  destruct (String.eqb_spec (plan_id p) (plan_id ed)); congruence.
Qed.

(** Saving a 45-minute plan clears the editor without an alert.  A plan
    with a new id goes to the front of the list; a plan with a stored id
    takes the place of every stored plan with that id, the list keeping
    its length and its sequence of ids.  Either way the saved plan is in
    the list afterwards. *)
Theorem savePlan_stores (st : state) (ed : WorkoutPlan) :
  editing st = Some ed ->
  Layout.sum_minutes (blocks ed) = 45 ->
  editing (fst (savePlan st)) = None /\
  snd (savePlan st) = None /\
  ((forall p, In p (plans st) -> plan_id p <> plan_id ed) ->
     plans (fst (savePlan st)) = ed :: plans st) /\
  ((exists p, In p (plans st) /\ plan_id p = plan_id ed) ->
     map plan_id (plans (fst (savePlan st))) = map plan_id (plans st) /\
     In ed (plans (fst (savePlan st))) /\
     forall i p, nth_error (plans st) i = Some p ->
       nth_error (plans (fst (savePlan st))) i =
       Some (if String.eqb (plan_id p) (plan_id ed) then ed else p)).
Proof.
  intros He Hsum. rewrite (save_accepted st ed He Hsum). cbn [fst snd plans editing].
  split; [reflexivity|]. split; [reflexivity|]. split.
  - intro Hnew.
    assert (existsb (fun p => String.eqb (plan_id p) (plan_id ed)) (plans st)
            = false) as ->; [|reflexivity].
    destruct (existsb _ (plans st)) eqn:E; [|reflexivity].
    apply existsb_exists in E. destruct E as (p & Hp & Heq).
    apply String.eqb_eq in Heq. exfalso. exact (Hnew p Hp Heq).
  - intros (p & Hp & Heq).
    assert (existsb (fun p => String.eqb (plan_id p) (plan_id ed)) (plans st)
            = true) as ->.
    { apply existsb_exists. exists p. split; [exact Hp|].
      apply String.eqb_eq. exact Heq. }
    split; [apply replace_ids|]. split.
    + apply in_map_iff. exists p. split; [|exact Hp].
      rewrite Heq, String.eqb_refl. reflexivity.
    + intros i q Hq. rewrite nth_error_map, Hq. reflexivity.
Qed.

Lemma savePlan_stores_witness :
  plans (fst (savePlan {| plans := [demo_plan]; editing := Some full_plan |}))
  = [full_plan; demo_plan].
Proof.
  destruct (savePlan_stores {| plans := [demo_plan]; editing := Some full_plan |}
              full_plan eq_refl eq_refl) as (_ & _ & H & _).
  apply H. intros p [<- | []]. discriminate.
Defined.

Lemma filter_keeps_NoDup_ids (f : WorkoutPlan -> bool) (ps : list WorkoutPlan) :
  NoDup (map plan_id ps) -> NoDup (map plan_id (filter f ps)).
Proof.
  induction ps as [|p ps IH]; simpl; [auto|].
  intro H. inversion H as [|x xs Hnotin Hnd]; subst.
  destruct (f p); simpl; [|apply IH; exact Hnd].
  constructor; [|apply IH; exact Hnd].
  intro Hin. apply Hnotin. apply in_map_iff in Hin.
  destruct Hin as (q & Hq & Hin). apply filter_In in Hin.
  apply in_map_iff. exists q. tauto.
Qed.

(** Plan ids stay unique: if no two stored plans share an id, none do
    after [savePlan] or [removePlan], whatever is under edit. *)
Theorem plan_ids_stay_unique (st : state) :
  NoDup (map plan_id (plans st)) ->
  NoDup (map plan_id (plans (fst (savePlan st)))) /\
  forall i, NoDup (map plan_id (plans (removePlan i st))).
Proof.
  intro H. split; [|intro i; apply filter_keeps_NoDup_ids; exact H].
  unfold savePlan. destruct (editing st) as [ed|]; [|exact H].
  destruct (negb _); [exact H|]. cbn [fst plans].
  destruct (existsb _ (plans st)) eqn:E.
  - rewrite replace_ids. exact H.
  - simpl. constructor; [|exact H].
    intro Hin. apply in_map_iff in Hin. destruct Hin as (p & Hp & Hin).
    assert (existsb (fun p => String.eqb (plan_id p) (plan_id ed)) (plans st)
            = true) as Ht.
    { apply existsb_exists. exists p. split; [exact Hin|].
      apply String.eqb_eq. exact Hp. }
    congruence.
Qed.

Lemma plan_ids_stay_unique_witness :
  NoDup (map plan_id
    (plans (fst (savePlan {| plans := [demo_plan];
                             editing := Some full_plan |})))).
Proof.
  apply (plan_ids_stay_unique {| plans := [demo_plan];
                                 editing := Some full_plan |}).
  repeat constructor. intros [].
Defined.

(** Removing a plan leaves no plan with that id and keeps the others in
    their order; removing an id that is not stored changes nothing, and
    removing twice is removing once. *)
Theorem removePlan_spec (i : string) (st : state) :
  (forall p, In p (plans (removePlan i st)) <->
             In p (plans st) /\ plan_id p <> i) /\
  ((forall p, In p (plans st) -> plan_id p <> i) ->
     removePlan i st = st) /\
  removePlan i (removePlan i st) = removePlan i st.
Proof.
  split; [|split].
  - intro p. unfold removePlan. cbn [plans]. rewrite filter_In.
    rewrite negb_true_iff, String.eqb_neq. reflexivity.
  - intro H. destruct st as [ps ed]. unfold removePlan. cbn [plans editing] in *.
    f_equal. apply forallb_filter_id. apply forallb_forall.
    intros p Hp. apply negb_true_iff, String.eqb_neq. apply H. exact Hp.
  - unfold removePlan. cbn [plans editing]. rewrite filter_twice. reflexivity.
Qed.

Lemma removePlan_spec_witness :
  removePlan "zz" {| plans := [demo_plan]; editing := None |} =
  {| plans := [demo_plan]; editing := None |}.
Proof.
  destruct (removePlan_spec "zz" {| plans := [demo_plan]; editing := None |})
    as (_ & H & _).
  apply H. intros p [<- | []]. discriminate.
Defined.

(** Deleting the plan under edit right after pressing Save gives the
    same list as deleting it without saving, whether the save was
    accepted or rejected. *)
Theorem remove_after_save (st : state) (ed : WorkoutPlan) :
  editing st = Some ed ->
  plans (removePlan (plan_id ed) (fst (savePlan st))) =
  plans (removePlan (plan_id ed) st).
Proof.
  intro He. unfold savePlan. rewrite He.
  destruct (negb _); [reflexivity|]. cbn [fst]. unfold removePlan. cbn [plans].
  destruct (existsb _ (plans st)).
  - induction (plans st) as [|p ps IH]; [reflexivity|]. simpl.
    destruct (String.eqb (plan_id p) (plan_id ed)) eqn:E; simpl.
    + rewrite String.eqb_refl. simpl. exact IH.
    + rewrite E. simpl. f_equal. exact IH.
  - simpl. rewrite String.eqb_refl. reflexivity.
Qed.

Lemma remove_after_save_witness :
  plans (removePlan "q"
           (fst (savePlan {| plans := [demo_plan];
                             editing := Some full_plan |}))) = [demo_plan].
Proof.
  exact (remove_after_save {| plans := [demo_plan];
                              editing := Some full_plan |} full_plan eq_refl).
Defined.

(** Opening a stored plan of 45 minutes in the editor and saving it
    unchanged leaves the list as it was, when the stored ids are
    unique. *)
Theorem save_unchanged (st : state) (p : WorkoutPlan) :
  NoDup (map plan_id (plans st)) ->
  In p (plans st) ->
  Layout.sum_minutes (blocks p) = 45 ->
  savePlan (Editor.beginEdit p st) =
  ({| plans := plans st; editing := None |}, None).
Proof.
  intros Hnd Hin Hsum.
  rewrite (save_accepted (Editor.beginEdit p st) p eq_refl Hsum).
  cbn [Editor.beginEdit plans].
  assert (existsb (fun q => String.eqb (plan_id q) (plan_id p)) (plans st)
          = true) as ->.
  { apply existsb_exists. exists p. split; [exact Hin|]. apply String.eqb_refl. }
  do 2 f_equal.
  induction (plans st) as [|q qs IH]; [reflexivity|].
  simpl in Hnd. inversion Hnd as [|x xs Hnotin Hnd']; subst. simpl.
  destruct (String.eqb_spec (plan_id q) (plan_id p)) as [E | E].
  - destruct Hin as [-> | Hin].
    + f_equal. clear IH. rewrite <- (map_id qs) at 2.
      apply map_ext_in. intros q' Hq'.
      destruct (String.eqb_spec (plan_id q') (plan_id p)) as [E' | _];
        [|reflexivity].
      exfalso. apply Hnotin. rewrite <- E'. apply in_map. exact Hq'.
    + exfalso. apply Hnotin. rewrite E. apply in_map. exact Hin.
  - destruct Hin as [-> | Hin]; [congruence|].
    f_equal. apply IH; assumption.
Qed.

Lemma save_unchanged_witness :
  savePlan (Editor.beginEdit demo_plan
              {| plans := [full_plan; demo_plan]; editing := None |}) =
  ({| plans := [full_plan; demo_plan]; editing := None |}, None).
Proof.
  apply (save_unchanged {| plans := [full_plan; demo_plan]; editing := None |}
           demo_plan).
  - repeat constructor; simpl; intuition discriminate.
  - right. left. reflexivity.
  - reflexivity.
Defined.

End PlanListFacts.

(* ------------------------------------------------------------------ *)
(** ** Editing a plan *)

Section IndexedEdits.

Context {A : Type}.

Lemma replace_from_past (i idx : nat) (nb : A) (l : list A) :
  (idx < i)%nat -> Editor.replace_from i idx nb l = l.
Proof.
  revert i. induction l as [|a l IH]; intros i H; simpl; [reflexivity|].
  destruct (Nat.eqb_spec i idx); [lia|]. f_equal. apply IH. lia.
Qed.

Lemma replace_from_at (i k : nat) (nb x : A) (l : list A) :
  nth_error l k = Some x ->
  Editor.replace_from i (i + k) nb l = firstn k l ++ nb :: skipn (S k) l.
Proof.
  revert i k. induction l as [|a l IH]; intros i k H.
  - destruct k; discriminate.
  - destruct k as [|k]; simpl.
    + rewrite Nat.add_0_r, Nat.eqb_refl. f_equal.
      apply replace_from_past. lia.
    + destruct (Nat.eqb_spec i (i + S k)); [lia|]. f_equal.
      replace (i + S k)%nat with (S i + k)%nat by lia.
      apply IH. exact H.
Qed.

Lemma replace_from_beyond (i k : nat) (nb : A) (l : list A) :
  (List.length l <= k)%nat -> Editor.replace_from i (i + k) nb l = l.
Proof.
  revert i k. induction l as [|a l IH]; intros i k H; simpl; [reflexivity|].
  simpl in H. destruct k as [|k]; [lia|].
  destruct (Nat.eqb_spec i (i + S k)); [lia|]. f_equal.
  replace (i + S k)%nat with (S i + k)%nat by lia. apply IH. lia.
Qed.

Lemma drop_from_past (i idx : nat) (l : list A) :
  (idx < i)%nat -> Editor.drop_from i idx l = l.
Proof.
  revert i. induction l as [|a l IH]; intros i H; simpl; [reflexivity|].
  destruct (Nat.eqb_spec i idx); [lia|]. f_equal. apply IH. lia.
Qed.

Lemma drop_from_at (i k : nat) (x : A) (l : list A) :
  nth_error l k = Some x ->
  Editor.drop_from i (i + k) l = firstn k l ++ skipn (S k) l.
Proof.
  revert i k. induction l as [|a l IH]; intros i k H.
  - destruct k; discriminate.
  - destruct k as [|k]; simpl.
    + rewrite Nat.add_0_r, Nat.eqb_refl. apply drop_from_past. lia.
    + destruct (Nat.eqb_spec i (i + S k)); [lia|]. f_equal.
      replace (i + S k)%nat with (S i + k)%nat by lia.
      apply IH. exact H.
Qed.

Lemma drop_from_beyond (i k : nat) (l : list A) :
  (List.length l <= k)%nat -> Editor.drop_from i (i + k) l = l.
Proof.
  revert i k. induction l as [|a l IH]; intros i k H; simpl; [reflexivity|].
  simpl in H. destruct k as [|k]; [lia|].
  destruct (Nat.eqb_spec i (i + S k)); [lia|]. f_equal.
  replace (i + S k)%nat with (S i + k)%nat by lia. apply IH. lia.
Qed.

End IndexedEdits.

Section EditorFacts.

Import Instructor Editor.

Lemma sum_minutes_app (xs ys : list Block) :
  Layout.sum_minutes (xs ++ ys) =
  (Layout.sum_minutes xs + Layout.sum_minutes ys)%Z.
Proof.
  induction xs as [|x xs IH]; simpl; [reflexivity|].
  unfold Layout.sum_minutes in *. simpl. rewrite IH. lia.
Qed.

Lemma sum_minutes_split (bs : list Block) (k : nat) (b : Block) :
  nth_error bs k = Some b ->
  Layout.sum_minutes bs =
  (Layout.sum_minutes (firstn k bs) + minutes b +
   Layout.sum_minutes (skipn (S k) bs))%Z.
Proof.
  intro H. rewrite <- (firstn_skipn (S k) bs) at 1.
  rewrite sum_minutes_app, (sum_firstn_S bs k b H). reflexivity.
Qed.

(** Adding a block puts a block of zero minutes at the end: the total
    of the plan under edit does not change, so neither does the verdict
    of Save. *)
Theorem addBlock_keeps_total (fresh : string) (st : state)
  (ed : WorkoutPlan) :
  editing st = Some ed ->
  exists ed',
    editing (addBlock fresh st) = Some ed' /\
    plans (addBlock fresh st) = plans st /\
    List.length (blocks ed') = S (List.length (blocks ed)) /\
    firstn (List.length (blocks ed)) (blocks ed') = blocks ed /\
    Layout.sum_minutes (blocks ed') = Layout.sum_minutes (blocks ed) /\
    snd (savePlan (addBlock fresh st)) = snd (savePlan st).
Proof.
  intro He. unfold addBlock, on_editing. rewrite He.
  eexists. split; [reflexivity|]. split; [reflexivity|].
  cbn [with_blocks blocks].
  split; [rewrite length_app; simpl; lia|].
  split; [rewrite firstn_app, Nat.sub_diag, firstn_all; apply app_nil_r|].
  assert (Layout.sum_minutes
            (blocks ed ++
             [{| id := fresh; name := "New Block"; minutes := 0;
                 intensity := moderate; metric := None; target := None;
                 notes := Some ""%string |}])
          = Layout.sum_minutes (blocks ed)) as Hsum.
  { rewrite sum_minutes_app. simpl. lia. }
  split; [exact Hsum|].
  unfold savePlan. cbn [editing with_blocks blocks]. rewrite He.
  rewrite !sum_fold, !Z.add_0_l, Hsum.
  destruct (negb (Layout.sum_minutes (blocks ed) =? 45)); reflexivity.
Qed.

Lemma addBlock_keeps_total_witness :
  exists ed',
    editing (addBlock "n" {| plans := []; editing := Some short_plan |})
      = Some ed' /\
    Layout.sum_minutes (blocks ed') = 40%Z.
Proof.
  destruct (addBlock_keeps_total "n"
              {| plans := []; editing := Some short_plan |} short_plan eq_refl)
    as (ed' & He & _ & _ & _ & Hs & _).
  exists ed'. split; [exact He | rewrite Hs; reflexivity].
Defined.

(** Deleting the block at a position takes that block out and lowers
    the total by its minutes; changing it puts the new block in its
    place and moves the total by the difference.  At a position past
    the end both leave the blocks as they are. *)
Theorem edit_block_at (idx : nat) (st : state) (ed : WorkoutPlan) :
  editing st = Some ed ->
  (forall b, nth_error (blocks ed) idx = Some b ->
     (exists ed',
        editing (deleteBlock idx st) = Some ed' /\
        blocks ed' = firstn idx (blocks ed) ++ skipn (S idx) (blocks ed) /\
        Layout.sum_minutes (blocks ed') =
          (Layout.sum_minutes (blocks ed) - minutes b)%Z) /\
     (forall nb, exists ed',
        editing (changeBlock idx nb st) = Some ed' /\
        blocks ed' =
          firstn idx (blocks ed) ++ nb :: skipn (S idx) (blocks ed) /\
        Layout.sum_minutes (blocks ed') =
          (Layout.sum_minutes (blocks ed) - minutes b + minutes nb)%Z)) /\
  ((List.length (blocks ed) <= idx)%nat ->
     (exists ed', editing (deleteBlock idx st) = Some ed' /\
                  blocks ed' = blocks ed) /\
     (forall nb, exists ed', editing (changeBlock idx nb st) = Some ed' /\
                             blocks ed' = blocks ed)).
Proof.
  intro He. split.
  - intros b Hb. pose proof (sum_minutes_split (blocks ed) idx b Hb) as Hsplit.
    split.
    + unfold deleteBlock, on_editing. rewrite He.
      eexists. split; [reflexivity|]. cbn [with_blocks blocks].
      pose proof (drop_from_at 0 idx b (blocks ed) Hb) as E.
      cbn [Nat.add] in E. rewrite E.
      split; [reflexivity|]. rewrite sum_minutes_app. lia.
    + intro nb. unfold changeBlock, on_editing. rewrite He.
      eexists. split; [reflexivity|]. cbn [with_blocks blocks].
      pose proof (replace_from_at 0 idx nb b (blocks ed) Hb) as E.
      cbn [Nat.add] in E. rewrite E.
      split; [reflexivity|].
      rewrite sum_minutes_app. unfold Layout.sum_minutes at 2.
      cbn [fold_right]. fold (Layout.sum_minutes (skipn (S idx) (blocks ed))).
      lia.
  - intro Hlen. split.
    + unfold deleteBlock, on_editing. rewrite He.
      eexists. split; [reflexivity|]. cbn [with_blocks blocks].
      apply (drop_from_beyond 0 idx). exact Hlen.
    + intro nb. unfold changeBlock, on_editing. rewrite He.
      eexists. split; [reflexivity|]. cbn [with_blocks blocks].
      apply (replace_from_beyond 0 idx). exact Hlen.
Qed.

Lemma edit_block_at_witness :
  exists ed',
    editing (deleteBlock 1 {| plans := []; editing := Some full_plan |})
      = Some ed' /\
    Layout.sum_minutes (blocks ed') = 15%Z.
Proof.
  destruct (edit_block_at 1 {| plans := []; editing := Some full_plan |}
              full_plan eq_refl) as [H _].
  destruct (H _ eq_refl) as [(ed' & He & _ & Hs) _].
  exists ed'. split; [exact He | rewrite Hs; reflexivity].
Defined.

(** A new plan starts from the default blocks, 45 minutes in all, so it
    can be saved as it is; with an id no stored plan has, saving puts it
    at the front of the list. *)
Theorem new_plan_saves (pid n1 n2 n3 : string) (st : state) :
  (forall p, In p (plans st) -> plan_id p <> pid) ->
  exists np,
    editing (startNew pid n1 n2 n3 st) = Some np /\
    plan_id np = pid /\ map minutes (blocks np) = [10; 30; 5]%Z /\
    savePlan (startNew pid n1 n2 n3 st) =
      ({| plans := np :: plans st; editing := None |}, None).
Proof.
  intro Hfresh.
  set (np := {| plan_id := pid; title := "New Plan"; tags := [];
                blocks := DEFAULT_BLOCKS n1 n2 n3; author := "You" |}).
  exists np. split; [reflexivity|].
  split; [reflexivity|]. split; [reflexivity|].
  rewrite (save_accepted (startNew pid n1 n2 n3 st) np eq_refl eq_refl).
  cbn [startNew plans plan_id np].
  assert (existsb (fun p => String.eqb (plan_id p) pid) (plans st) = false)
    as ->; [|reflexivity].
  destruct (existsb _ (plans st)) eqn:E; [|reflexivity].
  apply existsb_exists in E. destruct E as (p & Hp & Heq).
  apply String.eqb_eq in Heq. exfalso. exact (Hfresh p Hp Heq).
Qed.

Lemma new_plan_saves_witness :
  exists np,
    editing (startNew "q" "x" "y" "z" {| plans := [demo_plan]; editing := None |})
      = Some np /\
    plan_id np = "q"%string /\ map minutes (blocks np) = [10; 30; 5]%Z /\
    savePlan (startNew "q" "x" "y" "z"
                {| plans := [demo_plan]; editing := None |}) =
      ({| plans := [np; demo_plan]; editing := None |}, None).
Proof.
  apply (new_plan_saves "q" "x" "y" "z"
           {| plans := [demo_plan]; editing := None |}).
  intros p [<- | []]. discriminate.
Defined.

End EditorFacts.

(* ------------------------------------------------------------------ *)
(** ** The total the timer runs against *)

Section TimerTotal.

Local Open Scope Q_scope.

Lemma reachable_all_45 (start : list WorkoutPlan) (st : Instructor.state) :
  all_45 start -> reachable start st -> all_45 (Instructor.plans st).
Proof.
  intros H0 Hr. induction Hr as [|st Hr IH|i st Hr IH|st ed Hr IH].
  - exact H0.
  - apply savePlan_keeps_45. exact IH.
  - apply removePlan_keeps_45. exact IH.
  - exact IH.
Qed.

(** Starting from the default plans, whatever the instructor saves,
    removes or edits and whichever plan the student selects (or none,
    once all are removed), the timer runs against 2700 seconds, and the
    percentage is a number. *)
Theorem timer_total_through_ui (p1 p2 i1 i2 i3 j1 j2 j3 : string)
  (st : Instructor.state) (student : Student.state) (e : Q) :
  reachable (DEFAULT_PLANS p1 p2 i1 i2 i3 j1 j2 j3) st ->
  Student.plans student = Instructor.plans st ->
  Timer.totalSec (Student.timer_blocks i1 i2 i3 student) = 2700%Z /\
  exists z,
    Timer.percent e
      (inject_Z (Timer.totalSec (Student.timer_blocks i1 i2 i3 student)))
    = Js.Fin (inject_Z z).
Proof.
  intros Hr Hp.
  assert (Timer.totalSec (Student.timer_blocks i1 i2 i3 student) = 2700%Z)
    as Htot.
  { apply timer_total_2700. rewrite Hp.
    apply (reachable_all_45 _ st (default_plans_45 p1 p2 i1 i2 i3 j1 j2 j3) Hr). }
  split; [exact Htot|]. rewrite Htot.
  eexists. apply percent_finite. discriminate.
Qed.

Lemma timer_total_through_ui_witness :
  Timer.totalSec
    (Student.timer_blocks "a" "b" "c"
       {| Student.plans := []; Student.selectedId := "p1";
          Student.timer := Timer.init; Student.studentName := "";
          Student.rpe_input := 5; Student.notes_input := "";
          Student.metricInputs := [] |}) = 2700%Z.
Proof.
  refine (proj1 (timer_total_through_ui "p1" "p2" "a" "b" "c" "d" "e" "f"
            (Instructor.removePlan "p2"
               (Instructor.removePlan "p1"
                  {| Instructor.plans :=
                       DEFAULT_PLANS "p1" "p2" "a" "b" "c" "d" "e" "f";
                     Instructor.editing := None |}))
            {| Student.plans := []; Student.selectedId := "p1";
               Student.timer := Timer.init; Student.studentName := "";
               Student.rpe_input := 5; Student.notes_input := "";
               Student.metricInputs := [] |} 0 _ eq_refl)).
  apply reach_remove, reach_remove, reach_start.
Defined.

End TimerTotal.

(* ------------------------------------------------------------------ *)
(** ** Rounding to binary64 *)

Section RoundingFacts.

Local Open Scope Q_scope.

Lemma pow2_pos (z : Z) : 0 < 2 ^ z.
Proof. apply Qpower_0_lt. reflexivity. Qed.

Lemma pow2_plus (a b : Z) : 2 ^ (a + b) == 2 ^ a * 2 ^ b.
Proof. apply Qpower_plus. discriminate. Qed.

Lemma pow2_le (a b : Z) : (a <= b)%Z -> 2 ^ a <= 2 ^ b.
Proof. intro H. apply Qpower_le_compat_l; [exact H | discriminate]. Qed.

Lemma pow2_lt (a b : Z) : (a < b)%Z -> 2 ^ a < 2 ^ b.
Proof. intro H. apply Qpower_lt_compat_l; [exact H | reflexivity]. Qed.

Lemma pow2_S (a : Z) : 2 ^ (a + 1) == 2 * 2 ^ a.
Proof. rewrite pow2_plus. change (2 ^ 1) with 2. ring. Qed.

Lemma pow2_Z (n : Z) : (0 <= n)%Z -> inject_Z (2 ^ n) == 2 ^ n.
Proof. intro H. rewrite Zpower_Qpower by exact H. reflexivity. Qed.

(** [ilog2] is the integer part of the binary logarithm. *)
Lemma ilog2_spec (x : Q) : 0 < x -> 2 ^ F64.ilog2 x <= x < 2 ^ (F64.ilog2 x + 1).
Proof.
  intro Hx. destruct x as [p d]. unfold F64.ilog2. cbn [Qnum Qden].
  assert (0 < p)%Z as Hp.
  { unfold Qlt in Hx. simpl in Hx. lia. }
  pose proof (Z.log2_spec p Hp) as [Hp1 Hp2].
  pose proof (Z.log2_spec (Z.pos d) eq_refl) as [Hd1 Hd2].
  pose proof (Z.log2_nonneg p) as Hlp. pose proof (Z.log2_nonneg (Z.pos d)) as Hld.
  set (lp := Z.log2 p) in *. set (ld := Z.log2 (Z.pos d)) in *.
  assert (p # d == inject_Z p / inject_Z (Z.pos d)) as Ex by apply Qmake_Qdiv.
  assert (0 < inject_Z (Z.pos d)) as Hdpos by reflexivity.
  (* bounds in Q *)
  rewrite Zle_Qle in Hp1, Hd1. rewrite Zlt_Qlt in Hp2, Hd2.
  rewrite <- Z.add_1_r in Hp2, Hd2.
  rewrite pow2_Z in Hp1, Hd1 by assumption.
  rewrite pow2_Z in Hp2, Hd2 by lia.
  assert (p # d < 2 ^ (lp - ld + 1)) as Hup.
  { rewrite Ex. apply Qlt_shift_div_r; [exact Hdpos|].
    assert (2 ^ (lp + 1) == 2 ^ (lp - ld + 1) * 2 ^ ld) as E.
    { rewrite <- pow2_plus. f_equiv. lia. }
    pose proof (pow2_pos (lp - ld + 1)).
    nra. }
  assert (2 ^ (lp - ld - 1) < p # d) as Hlow.
  { rewrite Ex. apply Qlt_shift_div_l; [exact Hdpos|].
    assert (2 ^ lp == 2 ^ (lp - ld - 1) * 2 ^ (ld + 1)) as E.
    { rewrite <- pow2_plus. f_equiv. lia. }
    pose proof (pow2_pos (lp - ld - 1)).
    nra. }
  destruct (Qle_bool (2 ^ (lp - ld)) (p # d)) eqn:E.
  - apply Qle_bool_iff in E. split; assumption.
  - assert (p # d < 2 ^ (lp - ld)) as Hlt.
    { apply Qnot_le_lt. intro H. apply Qle_bool_iff in H. congruence. }
    replace (lp - ld - 1 + 1)%Z with (lp - ld)%Z by lia.
    split; [apply Qlt_le_weak; exact Hlow | exact Hlt].
Qed.

Lemma ilog2_unique (x : Q) (k : Z) :
  2 ^ k <= x < 2 ^ (k + 1) -> F64.ilog2 x = k.
Proof.
  intros [Hlo Hhi].
  assert (0 < x) as Hx by (pose proof (pow2_pos k); lra).
  destruct (ilog2_spec x Hx) as [Slo Shi].
  assert (2 ^ k < 2 ^ (F64.ilog2 x + 1)) as H1 by lra.
  assert (2 ^ F64.ilog2 x < 2 ^ (k + 1)) as H2 by lra.
  apply Qpower_lt_compat_l_inv in H1; [|reflexivity].
  apply Qpower_lt_compat_l_inv in H2; [|reflexivity].
  lia.
Qed.

Lemma ilog2_comp (x y : Q) : 0 < x -> x == y -> F64.ilog2 x = F64.ilog2 y.
Proof.
  intros Hx E. symmetry. apply ilog2_unique. rewrite <- E. apply ilog2_spec. exact Hx.
Qed.

Lemma ilog2_mono (x y : Q) : 0 < x -> x <= y -> (F64.ilog2 x <= F64.ilog2 y)%Z.
Proof.
  intros Hx Hxy.
  destruct (ilog2_spec x Hx) as [Slo _].
  assert (0 < y) as Hy by lra.
  destruct (ilog2_spec y Hy) as [_ Thi].
  assert (2 ^ F64.ilog2 x < 2 ^ (F64.ilog2 y + 1)) as H by lra.
  apply Qpower_lt_compat_l_inv in H; [|reflexivity]. lia.
Qed.

Lemma floor_bounds (q : Q) :
  inject_Z (Qfloor q) <= q < inject_Z (Qfloor q) + 1.
Proof.
  split; [apply Qfloor_le|].
  pose proof (Qlt_floor q) as H. rewrite inject_Z_plus in H. exact H.
Qed.

Lemma rne_cases (q : Q) :
  (q - inject_Z (Qfloor q) < 1 # 2 /\ F64.rne q = Qfloor q) \/
  (1 # 2 < q - inject_Z (Qfloor q) /\ F64.rne q = (Qfloor q + 1)%Z) \/
  (q - inject_Z (Qfloor q) == 1 # 2 /\
   F64.rne q = if Z.even (Qfloor q) then Qfloor q else (Qfloor q + 1)%Z).
Proof.
  unfold F64.rne.
  destruct (Qcompare (q - inject_Z (Qfloor q)) (1 # 2)) eqn:E.
  - right. right. split; [apply Qeq_alt; exact E | reflexivity].
  - left. split; [apply Qlt_alt; exact E | reflexivity].
  - right. left. split; [apply Qgt_alt; exact E | reflexivity].
Qed.

Lemma rne_comp (p q : Q) : p == q -> F64.rne p = F64.rne q.
Proof.
  intro E. unfold F64.rne. rewrite (Qfloor_comp _ _ E).
  assert (Qcompare (p - inject_Z (Qfloor q)) (1 # 2) =
          Qcompare (q - inject_Z (Qfloor q)) (1 # 2)) as ->.
  { apply Qcompare_comp; [rewrite E|]; reflexivity. }
  reflexivity.
Qed.

(** [rne] is within a half of its argument, monotone, the identity on
    integers and odd. *)
Lemma rne_near (q : Q) :
  inject_Z (F64.rne q) - (1 # 2) <= q <= inject_Z (F64.rne q) + (1 # 2).
Proof.
  pose proof (floor_bounds q) as Hf.
  destruct (rne_cases q) as [[H ->] | [[H ->] | [H ->]]].
  - lra.
  - rewrite inject_Z_plus. change (inject_Z 1) with 1. lra.
  - destruct (Z.even (Qfloor q)); [lra|].
    rewrite inject_Z_plus. change (inject_Z 1) with 1. lra.
Qed.

Lemma rne_int (z : Z) : F64.rne (inject_Z z) = z.
Proof.
  unfold F64.rne. rewrite Qfloor_Z.
  destruct (Qcompare (inject_Z z - inject_Z z) (1 # 2)) eqn:E.
  - apply Qeq_alt in E. lra.
  - reflexivity.
  - apply Qgt_alt in E. lra.
Qed.

Lemma rne_floor (q : Q) : (Qfloor q <= F64.rne q <= Qfloor q + 1)%Z.
Proof.
  destruct (rne_cases q) as [[_ ->] | [[_ ->] | [_ ->]]]; try lia.
  destruct (Z.even (Qfloor q)); lia.
Qed.

Lemma rne_mono (p q : Q) : p <= q -> (F64.rne p <= F64.rne q)%Z.
Proof.
  intro H. pose proof (Qfloor_resp_le _ _ H) as Hf.
  destruct (Z.eq_dec (Qfloor p) (Qfloor q)) as [E | NE].
  - destruct (rne_cases p) as [[Hp ->] | [[Hp ->] | [Hp ->]]];
    destruct (rne_cases q) as [[Hq ->] | [[Hq ->] | [Hq ->]]];
    rewrite ?E in *; try lia; try lra;
    destruct (Z.even (Qfloor q)); try lia; lra.
  - pose proof (rne_floor p). pose proof (rne_floor q). lia.
Qed.

Lemma rne_opp (q : Q) : F64.rne (- q) = (- F64.rne q)%Z.
Proof.
  pose proof (floor_bounds q) as Hf.
  destruct (Qeq_dec q (inject_Z (Qfloor q))) as [E | NE].
  - rewrite (rne_comp q _ E), rne_int.
    rewrite (rne_comp (- q) (inject_Z (- Qfloor q))).
    + apply rne_int.
    + rewrite inject_Z_opp, <- E. reflexivity.
  - assert (inject_Z (Qfloor q) < q) as Hlt.
    { destruct Hf as [Hle _]. apply Qle_lteq in Hle.
      destruct Hle as [Hl | He]; [exact Hl | exfalso; apply NE; symmetry; exact He]. }
    assert (Qfloor (- q) = (- Qfloor q - 1)%Z) as Ef.
    { apply Qfloor_unique. 
      replace (- Qfloor q - 1 + 1)%Z with (- Qfloor q)%Z by lia.
      unfold Zminus. rewrite inject_Z_plus, !inject_Z_opp.
      change (inject_Z 1) with 1. lra. }
    assert (Z.even (- Qfloor q - 1) = negb (Z.even (Qfloor q))) as Ev.
    { rewrite Z.even_sub, Z.even_opp. simpl. destruct (Z.even (Qfloor q)); reflexivity. }
    destruct (rne_cases q) as [[Hq ->] | [[Hq ->] | [Hq ->]]];
    destruct (rne_cases (- q)) as [[Hn ->] | [[Hn ->] | [Hn ->]]];
    rewrite Ef in *; unfold Zminus in Hn; 
    rewrite ?inject_Z_plus, ?inject_Z_opp in Hn; change (inject_Z 1) with 1 in Hn;
    try lia; try lra.
    rewrite Ev. destruct (Z.even (Qfloor q)); simpl; lia.
Qed.

Lemma Qabs_opp_eq (x : Q) : Qabs (- x) = Qabs x.
Proof. destruct x as [n d]. unfold Qabs, Qopp. simpl. rewrite Z.abs_opp. reflexivity. Qed.

Lemma ulp_exp_opp (x : Q) : F64.ulp_exp (- x) = F64.ulp_exp x.
Proof. unfold F64.ulp_exp. rewrite Qabs_opp_eq. reflexivity. Qed.

Lemma Qabs_pos_iff (x : Q) : ~ x == 0 -> 0 < Qabs x.
Proof.
  intro H. destruct (Qlt_le_dec 0 x) as [Hp | Hn].
  - rewrite Qabs_pos; lra.
  - rewrite Qabs_neg by exact Hn. 
    assert (x < 0). { apply Qle_lteq in Hn. destruct Hn; [assumption | contradiction]. }
    lra.
Qed.

Lemma ulp_exp_comp (x y : Q) : ~ x == 0 -> x == y -> F64.ulp_exp x = F64.ulp_exp y.
Proof.
  intros Hx E. unfold F64.ulp_exp. f_equal. f_equal.
  apply ilog2_comp; [apply Qabs_pos_iff; exact Hx | rewrite E; reflexivity].
Qed.

Lemma nearest_zero (x : Q) : x == 0 -> F64.nearest x == 0.
Proof.
  intro E. unfold F64.nearest.
  rewrite (rne_comp _ (inject_Z 0)).
  - rewrite rne_int. change (inject_Z 0) with 0. ring.
  - change (inject_Z 0) with 0.
    generalize (2 ^ F64.ulp_exp x) (pow2_pos (F64.ulp_exp x)). intros c Hc.
    rewrite E. field. lra.
Qed.

Lemma nearest_comp (x y : Q) : x == y -> F64.nearest x == F64.nearest y.
Proof.
  intro E. destruct (Qeq_dec x 0) as [Hz | Hnz].
  - rewrite (nearest_zero x Hz), (nearest_zero y); [reflexivity|].
    rewrite <- E. exact Hz.
  - unfold F64.nearest. rewrite <- (ulp_exp_comp x y Hnz E).
    rewrite (rne_comp (x / 2 ^ F64.ulp_exp x) (y / 2 ^ F64.ulp_exp x)).
    + reflexivity.
    + generalize (2 ^ F64.ulp_exp x). intro c. rewrite E. reflexivity.
Qed.

Lemma nearest_opp (x : Q) : F64.nearest (- x) == - F64.nearest x.
Proof.
  unfold F64.nearest. rewrite ulp_exp_opp.
  rewrite (rne_comp (- x / 2 ^ F64.ulp_exp x) (- (x / 2 ^ F64.ulp_exp x))).
  - rewrite rne_opp, inject_Z_opp. ring.
  - field. apply Qpower_not_0. discriminate.
Qed.

Lemma ulp_exp_pos_spec (x : Q) :
  0 < x ->
  x < 2 ^ (F64.ulp_exp x + 53) /\
  ((-1074 < F64.ulp_exp x)%Z -> 2 ^ (F64.ulp_exp x + 52) <= x).
Proof.
  intro Hx. unfold F64.ulp_exp.
  assert (F64.ilog2 (Qabs x) = F64.ilog2 x) as ->.
  { symmetry. apply ilog2_comp; [exact Hx|]. rewrite Qabs_pos; lra. }
  destruct (ilog2_spec x Hx) as [Hlo Hhi]. split.
  - apply Qlt_le_trans with (2 ^ (F64.ilog2 x + 1)); [exact Hhi|].
    apply pow2_le. lia.
  - intro H. replace (Z.max (F64.ilog2 x - 52) (-1074) + 52)%Z with (F64.ilog2 x) by lia.
    exact Hlo.
Qed.

Lemma scaled_bounds (x : Q) :
  0 < x ->
  x / 2 ^ F64.ulp_exp x < inject_Z (2 ^ 53) /\
  ((-1074 < F64.ulp_exp x)%Z -> inject_Z (2 ^ 52) <= x / 2 ^ F64.ulp_exp x).
Proof.
  intro Hx. destruct (ulp_exp_pos_spec x Hx) as [Hhi Hlo].
  pose proof (pow2_pos (F64.ulp_exp x)) as Hp.
  rewrite !pow2_Z by lia. split.
  - apply Qlt_shift_div_r; [exact Hp|].
    rewrite <- pow2_plus. rewrite Z.add_comm. exact Hhi.
  - intro H. apply Qle_shift_div_l; [exact Hp|].
    rewrite <- pow2_plus. rewrite Z.add_comm. apply Hlo. exact H.
Qed.

Lemma nearest_nonneg (x : Q) : 0 <= x -> 0 <= F64.nearest x.
Proof.
  intro H. unfold F64.nearest. pose proof (pow2_pos (F64.ulp_exp x)) as Hp.
  assert (0 <= x / 2 ^ F64.ulp_exp x) as Hs by (apply Qle_shift_div_l; lra).
  pose proof (rne_mono _ _ Hs) as Hr. change 0 with (inject_Z 0) in Hr at 1.
  rewrite rne_int in Hr. rewrite Zle_Qle in Hr. change (inject_Z 0) with 0 in Hr.
  nra.
Qed.

Lemma ulp_exp_mono (x y : Q) : 0 < x -> x <= y -> (F64.ulp_exp x <= F64.ulp_exp y)%Z.
Proof.
  intros Hx Hxy. unfold F64.ulp_exp.
  assert (F64.ilog2 (Qabs x) <= F64.ilog2 (Qabs y))%Z.
  { apply ilog2_mono; rewrite !Qabs_pos; lra. }
  lia.
Qed.

Lemma nearest_mono_pos (x y : Q) : 0 < x -> x <= y -> F64.nearest x <= F64.nearest y.
Proof.
  intros Hx Hxy. assert (0 < y) as Hy by lra.
  pose proof (ulp_exp_mono x y Hx Hxy) as He.
  destruct (scaled_bounds x Hx) as [Hxhi _].
  destruct (scaled_bounds y Hy) as [_ Hylo].
  pose proof (pow2_pos (F64.ulp_exp x)) as Hpx.
  pose proof (pow2_pos (F64.ulp_exp y)) as Hpy.
  unfold F64.nearest.
  destruct (Z.eq_dec (F64.ulp_exp x) (F64.ulp_exp y)) as [E | NE].
  - rewrite E in *. 
    assert (x / 2 ^ F64.ulp_exp y <= y / 2 ^ F64.ulp_exp y) as Hs.
    { apply Qle_shift_div_l; [exact Hpy|].
      assert (x / 2 ^ F64.ulp_exp y * 2 ^ F64.ulp_exp y == x) as -> by (field; lra).
      exact Hxy. }
    pose proof (rne_mono _ _ Hs) as Hr. rewrite Zle_Qle in Hr. nra.
  - assert (F64.ulp_exp x + 1 <= F64.ulp_exp y)%Z as Hlt by lia.
    assert (-1074 < F64.ulp_exp y)%Z as Hn by (unfold F64.ulp_exp in *; lia).
    specialize (Hylo Hn).
    pose proof (rne_mono _ _ (Qlt_le_weak _ _ Hxhi)) as Hrx. rewrite rne_int in Hrx.
    pose proof (rne_mono _ _ Hylo) as Hry. rewrite rne_int in Hry.
    rewrite Zle_Qle in Hrx, Hry. rewrite pow2_Z in Hrx, Hry by lia.
    apply Qle_trans with (2 ^ 53 * 2 ^ F64.ulp_exp x); [nra|].
    apply Qle_trans with (2 ^ 52 * 2 ^ F64.ulp_exp y); [|nra].
    rewrite <- !pow2_plus. apply pow2_le. lia.
Qed.

(** Rounding to the nearest double is monotone. *)
Lemma nearest_mono (x y : Q) : x <= y -> F64.nearest x <= F64.nearest y.
Proof.
  intro H.
  destruct (Qlt_le_dec 0 x) as [Hx | Hx].
  - apply nearest_mono_pos; assumption.
  - destruct (Qlt_le_dec y 0) as [Hy | Hy].
    + assert (F64.nearest (- y) <= F64.nearest (- x)) as Hm.
      { apply nearest_mono_pos; lra. }
      rewrite !nearest_opp in Hm. lra.
    + assert (0 <= F64.nearest (- x)) as H1 by (apply nearest_nonneg; lra).
      rewrite nearest_opp in H1.
      pose proof (nearest_nonneg y Hy). lra.
Qed.

(** Its error on a non-negative [x] is at most [x * 2^-53], or
    [2^-1075] in the subnormal range. *)
Lemma nearest_err (x : Q) :
  0 <= x ->
  x - (x * 2 ^ (-53) + 2 ^ (-1075)) <= F64.nearest x <= x + (x * 2 ^ (-53) + 2 ^ (-1075)).
Proof.
  intro H0. destruct (Qeq_dec x 0) as [Hz | Hnz].
  - rewrite (nearest_zero x Hz), Hz. pose proof (pow2_pos (-1075)). lra.
  - assert (0 < x) as Hx.
    { apply Qle_lteq in H0. destruct H0 as [Hl | He]; [exact Hl|].
      exfalso. apply Hnz. symmetry. exact He. }
    unfold F64.nearest. set (e := F64.ulp_exp x).
    pose proof (pow2_pos e) as Hp.
    pose proof (rne_near (x / 2 ^ e)) as [Hlo Hhi].
    assert (x / 2 ^ e * 2 ^ e == x) as Hs by (field; lra).
    assert (2 ^ e * (1 # 2) <= x * 2 ^ (-53) + 2 ^ (-1075)) as Hulp.
    { assert (2 ^ e * (1 # 2) == 2 ^ (e - 1)) as ->.
      { unfold Zminus. rewrite pow2_plus. change (2 ^ (-1)) with (1 # 2). reflexivity. }
      pose proof (pow2_pos (-1075)). pose proof (pow2_pos (-53)).
      destruct (Z.eq_dec e (-1074)) as [Ee | Ne].
      - rewrite Ee. change (2 ^ (-1074 - 1)) with (2 ^ (-1075)). nra.
      - destruct (ulp_exp_pos_spec x Hx) as [_ Hge]. fold e in Hge.
        assert (-1074 < e)%Z as Hn by (unfold e, F64.ulp_exp in *; lia).
        specialize (Hge Hn).
        assert (2 ^ (e - 1) == 2 ^ (e + 52) * 2 ^ (-53)) as ->.
        { rewrite <- pow2_plus. f_equiv. lia. }
        nra. }
    set (s := x / 2 ^ e) in *. set (m := inject_Z (F64.rne s)) in *.
    split; nra.
Qed.

End RoundingFacts.

Section Binary64Ops.

Local Open Scope Q_scope.

Lemma nearest_0 : F64.nearest 0 == 0.
Proof. apply nearest_zero. reflexivity. Qed.

Lemma nearest_1 : F64.nearest 1 == 1.
Proof. vm_compute. reflexivity. Qed.

Lemma nearest_100 : F64.nearest 100 == 100.
Proof. vm_compute. reflexivity. Qed.

Lemma round_finite (x : Q) :
  - 2 ^ 1024 < F64.nearest x < 2 ^ 1024 ->
  F64.round x = Js.Fin (Qred (F64.nearest x)).
Proof.
  intro H. unfold F64.round.
  destruct (Qle_bool (2 ^ 1024) (Qabs (F64.nearest x))) eqn:E; [|reflexivity].
  apply Qle_bool_iff in E. apply Qabs_Qlt_condition in H.
  exfalso. exact (Qlt_not_le _ _ H E).
Qed.

(** The double delivered depends on the value rounded only, not on the
    fraction that denotes it. *)
Lemma round_comp (x y : Q) : x == y -> F64.round x = F64.round y.
Proof.
  intro E. unfold F64.round. pose proof (nearest_comp x y E) as En.
  assert (Qle_bool (2 ^ 1024) (Qabs (F64.nearest x)) =
          Qle_bool (2 ^ 1024) (Qabs (F64.nearest y))) as ->.
  { apply Qleb_comp; [reflexivity | rewrite En; reflexivity]. }
  assert (Qle_bool 0 x = Qle_bool 0 y) as ->.
  { apply Qleb_comp; [reflexivity | exact E]. }
  rewrite (Qred_complete _ _ En). reflexivity.
Qed.

(** Between two values whose doubles are finite, the result is finite
    and lies between those doubles. *)
Lemma round_between (lo hi x : Q) :
  lo <= x <= hi ->
  - 2 ^ 1024 < F64.nearest lo -> F64.nearest hi < 2 ^ 1024 ->
  F64.round x = Js.Fin (Qred (F64.nearest x)) /\
  F64.nearest lo <= F64.nearest x <= F64.nearest hi.
Proof.
  intros [Hlo Hhi] Blo Bhi.
  pose proof (nearest_mono _ _ Hlo). pose proof (nearest_mono _ _ Hhi).
  split; [apply round_finite; lra | lra].
Qed.

Lemma pow2_1024_big : 100 < 2 ^ 1024.
Proof. vm_compute. reflexivity. Qed.

Lemma unit_roundoff : 2 ^ (-53) <= 2 # 10000000000000000.
Proof. vm_compute. discriminate. Qed.

Lemma tiniest : 2 ^ (-1075) <= 1 # 100000000000000000000.
Proof. vm_compute. discriminate. Qed.

Lemma percent_value_range (e total : Q) :
  0 < total -> 0 <= e <= total ->
  0 <= F64.nearest (e / total) <= 1 /\
  0 <= Page64.percent_value e total <= 100.
Proof.
  intros Ht [He0 He1].
  assert (0 <= e / total <= 1) as [Hq0 Hq1].
  { split; [apply Qle_shift_div_l | apply Qle_shift_div_r]; lra. }
  pose proof (nearest_mono _ _ Hq0) as H0. pose proof (nearest_mono _ _ Hq1) as H1.
  rewrite nearest_0 in H0. rewrite nearest_1 in H1.
  split; [lra|]. unfold Page64.percent_value.
  assert (0 <= F64.nearest (e / total) * 100) as Ha by lra.
  assert (F64.nearest (e / total) * 100 <= 100) as Hb by lra.
  pose proof (nearest_mono _ _ Ha) as Hc. pose proof (nearest_mono _ _ Hb) as Hd.
  rewrite nearest_0 in Hc. rewrite nearest_100 in Hd. lra.
Qed.

(** The percentage as executed, for 0 <= elapsed <= total: nothing
    overflows, and [Math.round] is applied to [percent_value]. *)
Lemma percent64_value (e total : Q) :
  0 < total -> 0 <= e <= total ->
  Page64.percent e total =
  Js.Fin (inject_Z (Js.round_Q (Page64.percent_value e total))).
Proof.
  intros Ht He.
  destruct (percent_value_range e total Ht He) as [[Hq0 Hq1] [Hp0 Hp1]].
  pose proof pow2_1024_big as Hbig.
  unfold Page64.percent. cbn [F64.div].
  rewrite (Qeq_bool_false total 0) by lra.
  rewrite (round_finite (e / total)) by lra.
  cbn [F64.mul].
  assert (Qred (F64.nearest (e / total)) * 100 == F64.nearest (e / total) * 100)
    as Ered by (rewrite Qred_correct; reflexivity).
  rewrite (round_comp _ _ Ered).
  fold (Page64.percent_value e total) in *.
  rewrite round_finite.
  - cbn [Js.Math_round]. do 2 f_equal. apply round_Q_comp. apply Qred_correct.
  - fold (Page64.percent_value e total). lra.
Qed.

Lemma percent_value_close (e total : Q) :
  0 < total -> 0 <= e <= total ->
  100 * e / total - Page64.slack <= Page64.percent_value e total
    <= 100 * e / total + Page64.slack.
Proof.
  intros Ht He.
  destruct (percent_value_range e total Ht He) as [[Hq0 Hq1] _].
  assert (0 <= e / total <= 1) as [Hx0 Hx1].
  { destruct He. split; [apply Qle_shift_div_l | apply Qle_shift_div_r]; lra. }
  assert (100 * e / total == 100 * (e / total)) as -> by (field; lra).
  pose proof (nearest_err (e / total) Hx0) as [E1 E2].
  assert (0 <= F64.nearest (e / total) * 100) as Hy0 by lra.
  pose proof (nearest_err _ Hy0) as [E3 E4].
  fold (Page64.percent_value e total) in E3, E4.
  pose proof unit_roundoff as Hu. pose proof tiniest as Ht'.
  pose proof (pow2_pos (-53)) as Hu0. pose proof (pow2_pos (-1075)) as Ht0.
  set (x := e / total) in *. set (q := F64.nearest x) in *.
  set (u := 2 ^ (-53)) in *. set (h := 2 ^ (-1075)) in *.
  unfold Page64.slack.
  assert (x * u <= u) as Hxu by nra.
  assert (q * 100 * u <= 100 * u) as Hqu by nra.
  split; lra.
Qed.

Lemma percent_value_mono (e1 e2 total : Q) :
  0 < total -> e1 <= e2 ->
  Page64.percent_value e1 total <= Page64.percent_value e2 total.
Proof.
  intros Ht H. unfold Page64.percent_value.
  apply nearest_mono.
  assert (e1 / total <= e2 / total) as Hq.
  { apply Qle_shift_div_l; [exact Ht|].
    assert (e1 / total * total == e1) as -> by (field; lra). exact H. }
  pose proof (nearest_mono _ _ Hq). lra.
Qed.

End Binary64Ops.

(* ------------------------------------------------------------------ *)
(** ** The percentage as executed *)

Section PercentExecuted.

Local Open Scope Q_scope.

(** The examples of the timer hold as executed too. *)
Example percent64_example : Page64.percent 1500 2700 = Js.Fin 56.
Proof. vm_compute. reflexivity. Qed.

(** C2, at two failing inputs.  For the empty plan, with nothing
    elapsed, the quotient is 0/0 and the percentage is NaN, not 0.  At
    391.5 of 2700 seconds the quotient times 100 is the double just
    below 14.5 and the percentage is 14, where
    round(100 * 391.5 / 2700) = round(14.5) is 15. *)
Lemma percent_binary64_counterexample :
  Timer.totalSec [] = 0%Z /\
  Page64.percent 0 (inject_Z (Timer.totalSec [])) = Js.NaN /\
  Page64.percent 0 (inject_Z (Timer.totalSec [])) <> Js.Fin 0 /\
  Page64.percent (783 # 2) 2700 = Js.Fin 14 /\
  Js.round_Q (100 * (783 # 2) / 2700) = 15%Z.
Proof.
  split; [reflexivity|]. split; [reflexivity|]. split; [discriminate|].
  split; vm_compute; reflexivity.
Qed.

(** C2, amended.  With 0 <= elapsed <= total and total > 0 the
    percentage is an integer between 0 and 100: [Math.round] of the
    double (elapsed / total) * 100.  It is within 1/2 + 10^-13 of
    100 * elapsed / total, and it is the integer [k] whenever
    100 * elapsed / total lies between k - 1/2 and k + 1/2 and stays
    10^-13 clear of both ends.  With total = 0 and nothing elapsed it is
    NaN. *)
Theorem percent_binary64_spec (e total : Q) :
  (0 < total -> 0 <= e <= total ->
     exists z,
       Page64.percent e total = Js.Fin (inject_Z z) /\
       (0 <= z <= 100)%Z /\
       inject_Z z - (1 # 2) - Page64.slack <= 100 * e / total
         <= inject_Z z + (1 # 2) + Page64.slack /\
       forall k,
         inject_Z k - (1 # 2) + Page64.slack <= 100 * e / total ->
         100 * e / total < inject_Z k + (1 # 2) - Page64.slack ->
         z = k) /\
  (total == 0 -> e == 0 -> Page64.percent e total = Js.NaN).
Proof.
  split.
  - intros Ht He.
    exists (Js.round_Q (Page64.percent_value e total)).
    destruct (percent_value_range e total Ht He) as [_ [Hp0 Hp1]].
    pose proof (percent_value_close e total Ht He) as [Hc0 Hc1].
    pose proof (round_Q_nearest (Page64.percent_value e total)) as [Hn0 Hn1].
    split; [apply percent64_value; assumption|]. split.
    + split.
      * apply Z.le_trans with (Js.round_Q (inject_Z 0)).
        -- rewrite round_Q_int. lia.
        -- apply round_Q_mono. exact Hp0.
      * apply Z.le_trans with (Js.round_Q (inject_Z 100)).
        -- apply round_Q_mono. exact Hp1.
        -- rewrite round_Q_int. lia.
    + split; [lra|].
      intros k Hk0 Hk1. apply round_Q_is. lra.
  - intros Ht He. unfold Page64.percent. cbn [F64.div].
    apply Qeq_bool_iff in Ht. rewrite Ht. cbn [Js.div].
    apply Qeq_bool_iff in He. rewrite Ht, He. reflexivity.
Qed.

Lemma percent_binary64_spec_witness :
  exists z,
    Page64.percent 1500 2700 = Js.Fin (inject_Z z) /\
    (0 <= z <= 100)%Z /\
    inject_Z z - (1 # 2) - Page64.slack <= 100 * 1500 / 2700
      <= inject_Z z + (1 # 2) + Page64.slack /\
    forall k,
      inject_Z k - (1 # 2) + Page64.slack <= 100 * 1500 / 2700 ->
      100 * 1500 / 2700 < inject_Z k + (1 # 2) - Page64.slack ->
      z = k.
Proof.
  destruct (percent_binary64_spec 1500 2700) as [H _].
  apply H; [reflexivity | split; discriminate].
Defined.

(** With a positive total the percentage as executed is 0 at the start
    and 100 at the end and never goes down as the elapsed time goes up
    from 0 to the total.  It shows 100 once 100 * elapsed / total has
    passed 99.5 by 10^-13, and does not show 100 before it is within
    10^-13 of 99.5. *)
Theorem percent_binary64_progress (total : Q) :
  0 < total ->
  Page64.percent 0 total = Js.Fin 0 /\
  Page64.percent total total = Js.Fin 100 /\
  (forall e1 e2, 0 <= e1 -> e1 <= e2 -> e2 <= total ->
     exists z1 z2, Page64.percent e1 total = Js.Fin (inject_Z z1) /\
                   Page64.percent e2 total = Js.Fin (inject_Z z2) /\
                   (z1 <= z2)%Z) /\
  (forall e, 0 <= e <= total ->
     ((199 # 2) + Page64.slack <= 100 * e / total ->
        Page64.percent e total = Js.Fin 100) /\
     (Page64.percent e total = Js.Fin 100 ->
        (199 # 2) - Page64.slack <= 100 * e / total)).
Proof.
  intro Ht.
  assert (0 <= 0 <= total) as H0 by lra.
  assert (0 <= total <= total) as H1 by lra.
  split; [|split; [|split]].
  - rewrite (percent64_value 0 total Ht H0).
    rewrite (round_Q_comp _ (inject_Z 0)); [rewrite round_Q_int; reflexivity|].
    unfold Page64.percent_value.
    assert (0 / total == 0) as E by (field; lra).
    transitivity (F64.nearest 0); [|apply nearest_0].
    apply nearest_comp. rewrite (nearest_comp _ _ E), nearest_0. ring.
  - rewrite (percent64_value total total Ht H1).
    rewrite (round_Q_comp _ (inject_Z 100)); [rewrite round_Q_int; reflexivity|].
    unfold Page64.percent_value.
    assert (total / total == 1) as E by (field; lra).
    transitivity (F64.nearest 100); [|apply nearest_100].
    apply nearest_comp. rewrite (nearest_comp _ _ E), nearest_1. ring.
  - intros e1 e2 He1 H12 He2.
    exists (Js.round_Q (Page64.percent_value e1 total)),
           (Js.round_Q (Page64.percent_value e2 total)).
    split; [apply percent64_value; [exact Ht | lra]|].
    split; [apply percent64_value; [exact Ht | lra]|].
    apply round_Q_mono. apply percent_value_mono; assumption.
  - intros e He. rewrite (percent64_value e total Ht He).
    pose proof (percent_value_close e total Ht He) as [Hc0 Hc1].
    destruct (percent_value_range e total Ht He) as [_ [Hp0 Hp1]].
    split.
    + intro H. change (Js.Fin 100) with (Js.Fin (inject_Z 100)). do 2 f_equal.
      apply round_Q_is. change (inject_Z 100) with 100.
      unfold Page64.slack in *. lra.
    + intro H.
      assert (Js.round_Q (Page64.percent_value e total) = 100%Z) as Hr.
      { unfold inject_Z in H. congruence. }
      apply round_Q_is in Hr. change (inject_Z 100) with 100 in Hr.
      unfold Page64.slack in *. lra.
Qed.

Lemma percent_binary64_progress_witness :
  Page64.percent 2700 2700 = Js.Fin 100.
Proof.
  destruct (percent_binary64_progress 2700 eq_refl) as (_ & H & _).
  exact H.
Defined.

End PercentExecuted.

(* ------------------------------------------------------------------ *)
(** ** The improvement figure as executed *)

Section ImprovementExecuted.

Import Student.
Local Open Scope Q_scope.

(** The function on the series it reads, by the ends of the series. *)
Lemma computeImprovement_ends (logs : list SessionLog)
  (sel : option WorkoutPlan) (bid : string)
  (b : Js.number) (mid : list Js.number) (l : Js.number) :
  series_of logs sel bid = b :: mid ++ [l] ->
  Page64.computeImprovement logs sel bid =
  if negb (Js.truthy b) || Js.is_zero b
  then {| baseline := Some b; latest := Some l; percent := None |}
  else {| baseline := Some b; latest := Some l;
          percent := Some (F64.mul (F64.div (F64.sub l b) b) (Js.Fin 100)) |}.
Proof.
  intro Hs. unfold Page64.computeImprovement.
  change (numbers (map (metric_of bid) (myLogs logs sel)))
    with (series_of logs sel bid).
  rewrite Hs, nth_error_last_of.
  assert ((List.length (b :: mid ++ [l]) <? 2)%nat = false) as ->.
  { apply Nat.ltb_ge. cbn [List.length]. rewrite length_app. simpl. lia. }
  reflexivity.
Qed.




Lemma round_nonneg (x : Q) : 0 <= x -> num_nonneg (F64.round x).
Proof.
  intro H. unfold F64.round.
  destruct (Qle_bool (2 ^ 1024) (Qabs (F64.nearest x))) eqn:E.
  - apply Qle_bool_iff in H. rewrite H. exact I.
  - cbn [num_nonneg]. rewrite Qred_correct. apply nearest_nonneg. exact H.
Qed.

Lemma round_nonpos (x : Q) : x <= 0 -> num_nonpos (F64.round x).
Proof.
  intro H. unfold F64.round.
  destruct (Qle_bool (2 ^ 1024) (Qabs (F64.nearest x))) eqn:E.
  - destruct (Qle_bool 0 x) eqn:E0; [|exact I].
    apply Qle_bool_iff in E0.
    assert (x == 0) as Hz by lra.
    exfalso. apply Qle_bool_iff in E.
    assert (Qabs (F64.nearest x) == 0) as Ea.
    { rewrite (nearest_zero x Hz). reflexivity. }
    rewrite Ea in E. pose proof pow2_1024_big. lra.
  - cbn [num_nonpos]. rewrite Qred_correct.
    assert (0 <= F64.nearest (- x)) as Hn by (apply nearest_nonneg; lra).
    rewrite nearest_opp in Hn. lra.
Qed.

(** Dividing by a positive double keeps the sign, dividing by a
    negative one turns it; multiplying by 100 keeps it. *)
Lemma div_sign_pos (d : Js.number) (b : Q) :
  0 < b ->
  (num_nonneg d -> num_nonneg (F64.div d (Js.Fin b))) /\
  (num_nonpos d -> num_nonpos (F64.div d (Js.Fin b))).
Proof.
  intro Hb.
  assert (Qeq_bool b 0 = false) as Eb by (apply Qeq_bool_false; lra).
  assert (Qle_bool 0 b = true) as Elb by (apply Qle_bool_iff; lra).
  split; intro Hd; destruct d as [q| | |]; cbn [num_nonneg num_nonpos] in Hd;
    try contradiction; cbn [F64.div Js.div]; rewrite ?Eb, ?Elb; try exact I.
  - apply (round_nonneg (q / b)). apply Qle_shift_div_l; lra.
  - apply (round_nonpos (q / b)). apply Qle_shift_div_r; lra.
Qed.

Lemma div_sign_neg (d : Js.number) (b : Q) :
  b < 0 ->
  (num_nonneg d -> num_nonpos (F64.div d (Js.Fin b))) /\
  (num_nonpos d -> num_nonneg (F64.div d (Js.Fin b))).
Proof.
  intro Hb.
  assert (Qeq_bool b 0 = false) as Eb by (apply Qeq_bool_false; lra).
  assert (Qle_bool 0 b = false) as Elb.
  { destruct (Qle_bool 0 b) eqn:E; [|reflexivity].
    apply Qle_bool_iff in E. lra. }
  split; intro Hd; destruct d as [q| | |]; cbn [num_nonneg num_nonpos] in Hd;
    try contradiction; cbn [F64.div Js.div]; rewrite ?Eb, ?Elb; try exact I.
  - apply (round_nonpos (q / b)).
    assert (q / b == - (q / - b)) as -> by (field; lra).
    assert (0 <= q / - b) by (apply Qle_shift_div_l; lra). lra.
  - apply (round_nonneg (q / b)).
    assert (q / b == (- q) / (- b)) as -> by (field; lra).
    apply Qle_shift_div_l; lra.
Qed.

Lemma times_100_sign (q : Js.number) :
  (num_nonneg q -> num_nonneg (F64.mul q (Js.Fin 100))) /\
  (num_nonpos q -> num_nonpos (F64.mul q (Js.Fin 100))).
Proof.
  split; intro H; destruct q as [x| | |]; cbn [num_nonneg num_nonpos] in H;
    try contradiction; cbn [F64.mul Js.mul]; try exact I.
  - apply (round_nonneg (x * 100)). lra.
  - apply (round_nonpos (x * 100)). lra.
Qed.

(** The figure never has the wrong sign and is never NaN: for finite
    values and a baseline above 0 it is not negative when latest is at
    least the baseline and not positive when latest is at most the
    baseline; below a baseline under 0 it is the other way round.
    Equal values give 0.  (The figure can be an infinity.) *)
Theorem improvement_sign_binary64 (logs : list SessionLog)
  (sel : option WorkoutPlan) (bid : string)
  (b l : Q) (mid : list Js.number) :
  series_of logs sel bid = Js.Fin b :: mid ++ [Js.Fin l] ->
  ~ b == 0 ->
  exists p,
    percent (Page64.computeImprovement logs sel bid) = Some p /\
    p <> Js.NaN /\
    (0 < b -> (b <= l -> num_nonneg p) /\ (l <= b -> num_nonpos p)) /\
    (b < 0 -> (l <= b -> num_nonneg p) /\ (b <= l -> num_nonpos p)) /\
    (l == b -> p = Js.Fin 0).
Proof.
  intros Hs Hb. rewrite (computeImprovement_ends _ _ _ _ _ _ Hs).
  simpl Js.truthy. simpl Js.is_zero. rewrite (Qeq_bool_false _ _ Hb).
  cbn [negb orb percent].
  eexists. split; [reflexivity|].
  cbn [F64.sub].
  assert (l == b ->
          F64.mul (F64.div (F64.round (l - b)) (Js.Fin b)) (Js.Fin 100)
          = Js.Fin 0) as Hsame.
  { intro E. assert (l - b == 0) as Ez by lra.
    rewrite (round_comp _ _ Ez).
    assert (F64.round 0 = Js.Fin 0) as R0 by (vm_compute; reflexivity).
    rewrite R0. cbn [F64.div]. rewrite (Qeq_bool_false _ _ Hb).
    assert (0 / b == 0) as Ed by (field; exact Hb).
    rewrite (round_comp _ _ Ed), R0.
    vm_compute. reflexivity. }
  pose proof (round_nonneg (l - b)) as Rpos.
  pose proof (round_nonpos (l - b)) as Rneg.
  revert Hsame Rpos Rneg. generalize (F64.round (l - b)). intros d Hsame Rpos Rneg.
  pose proof (fun H => proj1 (div_sign_pos d b H)) as Dpp.
  pose proof (fun H => proj2 (div_sign_pos d b H)) as Dpn.
  pose proof (fun H => proj1 (div_sign_neg d b H)) as Dnp.
  pose proof (fun H => proj2 (div_sign_neg d b H)) as Dnn.
  revert Hsame Dpp Dpn Dnp Dnn. generalize (F64.div d (Js.Fin b)).
  intros q Hsame Dpp Dpn Dnp Dnn.
  pose proof (proj1 (times_100_sign q)) as Mpos.
  pose proof (proj2 (times_100_sign q)) as Mneg.
  revert Hsame Mpos Mneg. generalize (F64.mul q (Js.Fin 100)).
  intros p Hsame Mpos Mneg.
  assert (num_nonneg p -> p <> Js.NaN) as Np.
  { destruct p; cbn [num_nonneg]; intro H; [discriminate | contradiction
                                           | discriminate | contradiction]. }
  assert (num_nonpos p -> p <> Js.NaN) as Nn.
  { destruct p; cbn [num_nonpos]; intro H; [discriminate | contradiction
                                           | contradiction | discriminate]. }
  split; [|split; [|split]].
  - destruct (Qlt_le_dec l b) as [Hlb | Hlb];
    destruct (Qlt_le_dec 0 b) as [H0b | H0b].
    + apply Nn, Mneg, Dpn; [exact H0b|]. apply Rneg. lra.
    + assert (b < 0) as Hb0 by (apply Qle_lteq in H0b; tauto).
      apply Np, Mpos, Dnn; [exact Hb0|]. apply Rneg. lra.
    + apply Np, Mpos, Dpp; [exact H0b|]. apply Rpos. lra.
    + assert (b < 0) as Hb0 by (apply Qle_lteq in H0b; tauto).
      apply Nn, Mneg, Dnp; [exact Hb0|]. apply Rpos. lra.
  - intro H0b. split; intro H.
    + apply Mpos, Dpp; [exact H0b|]. apply Rpos. lra.
    + apply Mneg, Dpn; [exact H0b|]. apply Rneg. lra.
  - intro Hb0. split; intro H.
    + apply Mpos, Dnn; [exact Hb0|]. apply Rneg. lra.
    + apply Mneg, Dnp; [exact Hb0|]. apply Rpos. lra.
  - exact Hsame.
Qed.

Lemma improvement_sign_binary64_witness :
  exists p,
    percent (Page64.computeImprovement (two_sessions 3 4) (Some demo_plan) "b")
      = Some p /\
    p <> Js.NaN /\
    (0 < 3 -> (3 <= 4 -> num_nonneg p) /\ (4 <= 3 -> num_nonpos p)) /\
    (3 < 0 -> (4 <= 3 -> num_nonneg p) /\ (3 <= 4 -> num_nonpos p)) /\
    (4 == 3 -> p = Js.Fin 0).
Proof.
  apply (improvement_sign_binary64 (two_sessions 3 4) (Some demo_plan) "b"
           3 4 []); [reflexivity | discriminate].
Defined.

End ImprovementExecuted.

(* ------------------------------------------------------------------ *)
(** ** Saving with no plan left *)

Section FinishWithoutPlan.

(** C6, at a failing input.  The instructor removes both default plans;
    the student dashboard then has no selected plan, its timer runs on
    the default blocks, and Save Session raises: [finish] reads
    [selected.id] of undefined, where every other use of [selected]
    in the dashboard goes through [selected?.]. *)
Theorem finish_raises_when_no_plan_is_left :
  let inst :=
    Instructor.removePlan "p2"
      (Instructor.removePlan "p1"
         {| Instructor.plans :=
              DEFAULT_PLANS "p1" "p2" "a" "b" "c" "d" "e" "f";
            Instructor.editing := None |}) in
  let student :=
    {| Student.plans := Instructor.plans inst;
       Student.selectedId := "p1";
       Student.timer := {| Timer.isRunning := true;
                           Timer.elapsedSec := 1200%Q;
                           Timer.lastTick := Some 1200000%Q |};
       Student.studentName := "";
       Student.rpe_input := 5;
       Student.notes_input := "";
       Student.metricInputs := [] |} in
  Instructor.plans inst = [] /\
  Student.selected student = None /\
  Student.timer_blocks "a" "b" "c" student = DEFAULT_BLOCKS "a" "b" "c" /\
  Student.finish "id" "now" student [] = Student.TypeError.
Proof.
  repeat split.
Qed.

End FinishWithoutPlan.

(* ------------------------------------------------------------------ *)
(** ** The exact reading and the executed one side by side *)

Section TwoReadings.

Import Student.
Local Open Scope Q_scope.

(** Rounding touches the figure only: the executed function and the
    exact one return the same baseline and the same latest value, and
    each has a percent exactly when the other has. *)
Lemma executed_same_ends (logs : list SessionLog) (sel : option WorkoutPlan)
  (bid : string) :
  baseline (Page64.computeImprovement logs sel bid) =
    baseline (computeImprovement logs sel bid) /\
  latest (Page64.computeImprovement logs sel bid) =
    latest (computeImprovement logs sel bid) /\
  (percent (Page64.computeImprovement logs sel bid) = None <->
   percent (computeImprovement logs sel bid) = None).
Proof.
  unfold Page64.computeImprovement, computeImprovement, improvement_of.
  change (numbers (map (metric_of bid) (myLogs logs sel)))
    with (series_of logs sel bid).
  destruct (List.length (series_of logs sel bid) <? 2)%nat;
    [repeat split; reflexivity|].
  destruct (nth_error (series_of logs sel bid) 0) as [b|];
    [|repeat split; reflexivity].
  destruct (nth_error (series_of logs sel bid) _) as [l|];
    [|repeat split; reflexivity].
  destruct (negb (Js.truthy b) || Js.is_zero b); cbn [baseline latest percent];
    repeat split; intro H; try reflexivity; discriminate.
Qed.

(** The store of C1 as executed: baseline 15, latest 10, and the figure
    is the double -33.33333333333333. *)
Example newest_first_executed :
  let store :=
    Store.addLog (session "s2" "p" "b" 15)
                 (Store.addLog (session "s1" "p" "b" 10) []) in
  Page64.computeImprovement store (Some demo_plan) "b" =
  {| baseline := Some (Js.Fin 15); latest := Some (Js.Fin 10);
     percent := Some (Js.Fin (- 2345624805922133 # 70368744177664)) |}.
Proof. vm_compute. reflexivity. Qed.

(** The two percentages agree wherever 100 * elapsed / total keeps
    10^-13 clear of the half-integers; they differ at 391.5 of 2700
    seconds. *)
Lemma percent_readings (e total : Q) (k : Z) :
  0 < total -> 0 <= e <= total ->
  inject_Z k - (1 # 2) + Page64.slack <= 100 * e / total ->
  100 * e / total < inject_Z k + (1 # 2) - Page64.slack ->
  Page64.percent e total = Timer.percent e total.
Proof.
  intros Ht He Hlo Hhi.
  rewrite (percent64_value e total Ht He).
  rewrite percent_finite by lra.
  pose proof (percent_value_close e total Ht He) as [Hc0 Hc1].
  assert (Js.round_Q (Page64.percent_value e total) = k) as ->.
  { apply round_Q_is. lra. }
  assert (Js.round_Q (100 * e / total) = k) as ->.
  { apply round_Q_is. unfold Page64.slack in *. lra. }
  reflexivity.
Qed.

End TwoReadings.
